(** * Outline sidebar navigation: CollectionLink and DataLoader

    A shallow embedding of two React components of the Outline web
    application and the properties of their drag-and-drop decision logic,
    expansion state, search helper and document-loading life cycle.

    - [CollectionLink] embeds
      [app/components/Sidebar/components/CollectionLink.js];
    - [DataLoader] embeds the document scene's [DataLoader] component.

    JavaScript values are modelled as follows: a value that may be
    [null]/[undefined] or a string is an [option string]; a rejected
    promise is the left injection of a sum; an [async] method is cut at its
    [await]s into the synchronous pieces that run between two events of the
    event loop. *)

From Stdlib Require Import ZArith Lia Sorted.
From Stdlib Require OrderedTypeEx.
From stdpp Require Import base option list strings gmap.

Local Open Scope string_scope.
Local Open Scope list_scope.

(** ** JavaScript helpers *)

Module Js.

(** Truthiness of a value that is [undefined], [null] or a string: only a
    non-empty string is truthy. *)
Definition truthy (v : option string) : bool :=
  match v with
  | Some s => negb (bool_decide (s = ""))
  | None => false
  end.

(** [a === b] on values that are [null]/[undefined] or strings. *)
Definition strict_eq (a b : option string) : bool := bool_decide (a = b).

(** [s.match(/suffix$/)] for a literal suffix, as a boolean. *)
Definition endsWith (s suffix : string) : bool :=
  let n := String.length s in
  let m := String.length suffix in
  (m <=? n)%nat && bool_decide (String.substring (n - m) m s = suffix).

(** [String.prototype.startsWith]. *)
Definition startsWith (s pre : string) : bool := String.prefix pre s.

End Js.

(** The capability set of an entity, as the policies store hands it out. *)
Record Abilities := mkAbilities {
  can_read : bool;
  can_update : bool;
  can_move : bool
}.

(** ** CollectionLink *)

Module CollectionLink.

Record Collection := mkCollection {
  id : string;
  index : string;                 (* order key among sibling collections *)
  permission : option string;     (* null, "read" or "read_write" *)
  sort_field : string
}.

(** The drag item of type ["document"]. *)
Record DocumentItem := mkDocumentItem {
  item_id : string;
  item_collectionId : string
}.

(** The drag item of type ["collection"]. *)
Record CollectionItem := mkCollectionItem {
  dragged_id : string
}.

(** Calls the component makes on the stores' mutation entry points. *)
Inductive StoreCall :=
| DocumentsMove (documentId collectionId : string)
                (parentDocumentId : option string) (position : option nat)
| CollectionsMove (collectionId : string) (newIndex : string).

Record Props := mkProps {
  collection : Collection;
  belowCollection : option Collection;
  isDraggingAnyCollection : bool
}.

(** What the component reads from its hooks: the ui, collections and
    policies stores and the router location. *)
Record Stores := mkStores {
  activeCollectionId : option string;
  search : string;
  collections_get : string -> option Collection;
  abilities : string -> Abilities
}.

(** The component's own state: [useState] for [expanded], [useBoolean] for
    the permission dialog, [useRef] for the pending drop item. *)
Record State := mkState {
  expanded : bool;
  permissionOpen : bool;
  itemRef : option DocumentItem
}.

Definition setExpanded (b : bool) (st : State) : State :=
  mkState b (permissionOpen st) (itemRef st).

Definition handlePermissionOpen (st : State) : State :=
  mkState (expanded st) true (itemRef st).

Definition handlePermissionClose (st : State) : State :=
  mkState (expanded st) false (itemRef st).

Definition setItemRef (it : DocumentItem) (st : State) : State :=
  mkState (expanded st) (permissionOpen st) (Some it).

(** [key] lies strictly between the two bounds, either of which may be
    [null]; keys are compared as JavaScript compares strings. *)
Definition strictlyBetween (lower : option string) (key : string)
           (upper : option string) : Prop :=
  (forall a, lower = Some a -> String.ltb a key = true)
  /\ (forall b, upper = Some b -> String.ltb key b = true).

(** Modelled from the spec: the [fractional-index] package is not among the
    sources.  Its one function allocates a key between two keys, either of
    which may be [null]; a key it returns lies strictly between them.  The
    result [None] stands for a call that throws instead of returning. *)
Class OrderKeys := {
  fractionalIndex : option string -> option string -> option string;
  fractionalIndex_between :
    forall (lower upper : option string) (key : string),
      fractionalIndex lower upper = Some key ->
      strictlyBetween lower key upper
}.

Section Component.
Context `{OrderKeys}.
Variable props : Props.
Variable stores : Stores.

(** [React.useState(collection.id === ui.activeCollectionId)] *)
Definition initialExpanded : bool :=
  Js.strict_eq (Some (id (collection props))) (activeCollectionId stores).

Definition initialState : State := mkState initialExpanded false None.

(** The body of the [React.useEffect] on
    [isDraggingAnyCollection, collection.id, ui.activeCollectionId, search]. *)
Definition expandEffect (st : State) : State :=
  if bool_decide (search stores = "?starred") then st
  else if isDraggingAnyCollection props then setExpanded false st
  else setExpanded
         (Js.strict_eq (Some (id (collection props)))
                       (activeCollectionId stores)) st.

Definition belowCollectionIndex : option string :=
  match belowCollection props with
  | Some below => Some (index below)
  | None => None
  end.

(** The guard of the permission dialog:
    [prevCollection && prevCollection.permission === null &&
     prevCollection.permission !== collection.permission]. *)
Definition needsPermissionDialog (prevCollection : option Collection) : bool :=
  match prevCollection with
  | Some prev =>
      Js.strict_eq (permission prev) None
      && negb (Js.strict_eq (permission prev) (permission (collection props)))
  | None => false
  end.

(** Drop to re-parent: the [drop] callback of the body zone.  [didDrop] is
    [monitor.didDrop()].  (The source's [if (!collection) return] cannot
    fire: the prop is not optional.) *)
Definition drop (didDrop : bool) (item : DocumentItem) (st : State)
  : State * list StoreCall :=
  if didDrop then (st, [])
  else if bool_decide (id (collection props) = item_collectionId item)
  then (st, [])
  else
    let prevCollection := collections_get stores (item_collectionId item) in
    if needsPermissionDialog prevCollection
    then (handlePermissionOpen (setItemRef item st), [])
    else (st, [DocumentsMove (item_id item) (id (collection props)) None None]).

Definition drop_canDrop (item : DocumentItem) : bool :=
  can_update (abilities stores (id (collection props))).

(** Drop to reorder: the top-edge cursor. *)
Definition dropToReorder (item : DocumentItem) (st : State)
  : State * list StoreCall :=
  (st, [DocumentsMove (item_id item) (id (collection props)) None (Some 0)]).

(** Drop to reorder Collection.  The argument of [collections.move] is
    evaluated first: when [fractionalIndex] throws, the [async] handler
    rejects and [collections.move] is not called. *)
Definition dropToReorderCollection (item : CollectionItem) (st : State)
  : State * list StoreCall :=
  match fractionalIndex (Some (index (collection props)))
                        belowCollectionIndex with
  | Some key => (st, [CollectionsMove (dragged_id item) key])
  | None => (st, [])
  end.

Definition dropToReorderCollection_canDrop (item : CollectionItem) : bool :=
  negb (bool_decide (id (collection props) = dragged_id item))
  && match belowCollection props with
     | None => true
     | Some below => negb (bool_decide (dragged_id item = id below))
     end.

(** react-dnd calls a target's [drop] only when its [canDrop] accepts the
    item; a rejected drop changes nothing. *)
Definition collectionDropGesture (item : CollectionItem) (st : State)
  : State * list StoreCall :=
  if dropToReorderCollection_canDrop item
  then dropToReorderCollection item st
  else (st, []).

Definition documentDropGesture (didDrop : bool) (item : DocumentItem)
           (st : State) : State * list StoreCall :=
  if drop_canDrop item then drop didDrop item st else (st, []).

(** Modelled from the spec: [scenes/DocumentReparent], the body of the
    permission dialog, is not among the sources.  It is handed the pending
    item and the destination collection; on explicit confirmation it
    performs the move and then calls [onSubmit], on cancellation it only
    calls [onCancel].  Both callbacks are [handlePermissionClose]. *)
Definition DocumentReparent_confirm (st : State) : State * list StoreCall :=
  match itemRef st with
  | Some item =>
      (handlePermissionClose st,
       [DocumentsMove (item_id item) (id (collection props)) None None])
  | None => (handlePermissionClose st, [])
  end.

Definition DocumentReparent_cancel (st : State) : State * list StoreCall :=
  (handlePermissionClose st, []).

End Component.

(** Modelled from the spec: the collections store is not among the sources;
    its [move] sets the collection's own order key directly and leaves every
    other collection alone. *)
Definition collections_move (cid newIndex : string) (cs : list Collection)
  : list Collection :=
  map (fun c => if bool_decide (id c = cid)
                then mkCollection (id c) newIndex (permission c) (sort_field c)
                else c) cs.

Definition applyCollectionCalls (calls : list StoreCall) (cs : list Collection)
  : list Collection :=
  foldl (fun acc call =>
           match call with
           | CollectionsMove cid k => collections_move cid k acc
           | DocumentsMove _ _ _ _ => acc
           end) cs calls.

Definition indexOf (cid : string) (cs : list Collection) : option string :=
  index <$> List.find (fun c => bool_decide (id c = cid)) cs.

End CollectionLink.

(** ** DataLoader *)

Module DataLoader.

(** The classified failures of [utils/errors]; anything else is [OtherError]. *)
Inductive Error :=
| NotFoundError
| OfflineError
| OtherError (message : string).

#[global] Instance Error_eq_dec : EqDecision Error.
Proof. solve_decision. Defined.

(** [error instanceof NotFoundError] *)
Definition isNotFound (e : Error) : bool :=
  match e with
  | NotFoundError => true
  | _ => false
  end.

Record Document := mkDocument {
  id : string;
  url : string;
  title : string;
  updatedAt : string;
  collectionId : string;
  parentDocumentId : option string
}.

#[global] Instance Document_eq_dec : EqDecision Document.
Proof. solve_decision. Defined.

Record Revision := mkRevision {
  revision_id : string;
  revision_documentId : string
}.

(** The ancestor chain the server returns next to a shared document. *)
#[warnings="-register-all"]
Inductive NavigationNode :=
| NavNode (node_id node_title node_url : string) (children : list NavigationNode).

(** What [documents.fetch] resolves to. *)
Record Response := mkResponse {
  response_document : Document;
  response_sharedTree : option NavigationNode
}.

(** [match.params] *)
Record Params := mkParams {
  shareId : option string;
  documentSlug : string;
  revisionId : option string
}.

Record Props := mkProps {
  params : Params;             (* match.params *)
  match_path : string;         (* match.path *)
  match_url : string;          (* match.url *)
  pathname : string            (* location.pathname *)
}.

(** Pure helpers imported from modules that are not among the sources. *)
Class Helpers := {
  isInternalUrl : string -> bool;
  parseDocumentSlug : string -> string;
  deburr : string -> string;
  toLowerCase : string -> string;
  (* formatDistanceToNow(Date.parse(updatedAt), { addSuffix: true }) *)
  formatDistanceToNow : string -> string;
  updateDocumentUrl : string -> Document -> string;
  matchDocumentEdit : string
}.

(** The stores the loader only reads. *)
Record Stores := mkStores {
  documents_getByUrl : string -> option Document;
  policies_get : string -> bool;            (* is a policy present? *)
  policies_abilities : string -> Abilities;
  auth_user_id : option string              (* auth.user && auth.user.id *)
}.

Inductive NavOp :=
| Push (address : string)
| Replace (address : string).

(** The instance fields of the component. *)
Record Loader := mkLoader {
  props : Props;
  document : option Document;
  revision : option Revision;
  error : option Error;
  sharedTree : option NavigationNode
}.

(** An asynchronous call that has not settled yet, with the variables its
    continuation has captured.

    - [FetchingDocument]: [loadDocument] suspended at [documents.fetch], with
      the [shareId], [documentSlug] and [revisionId] it destructured on entry;
    - [FetchingRevision]: [loadRevision] suspended at [revisions.fetch];
      [awaitedBy] holds the captured [shareId] and [revisionId] of the
      [loadDocument] that awaits it, or is [None] when [componentDidUpdate]
      called it and dropped the promise;
    - [FetchingShare]: the detached [shares.fetch(...).catch(...)] chain. *)
Inductive Task :=
| FetchingDocument (sh : option string) (slug : string) (rev : option string)
| FetchingRevision (arg : option string)
                   (awaitedBy : option (option string * option string))
| FetchingShare (documentId : string).

Record World := mkWorld {
  loader : Loader;
  stores : Stores;
  mounted : bool;                                   (* React's own bookkeeping *)
  sharedTreeCache : gmap string (option NavigationNode);
  activeDocument : option Document;                 (* ui.activeDocument *)
  history : list NavOp;                             (* calls on props.history, oldest first *)
  pending : list (nat * Task);
  nextId : nat;
  settled : list (nat * option Error);              (* how each async method call ended *)
  unhandled : list Error                            (* rejections that no handler observes *)
}.

(** *** Field updates *)

Definition with_loader (f : Loader -> Loader) (w : World) : World :=
  mkWorld (f (loader w)) (stores w) (mounted w) (sharedTreeCache w)
          (activeDocument w) (history w) (pending w) (nextId w) (settled w)
          (unhandled w).

Definition set_props (p : Props) (l : Loader) : Loader :=
  mkLoader p (document l) (revision l) (error l) (sharedTree l).

Definition set_document (d : option Document) (l : Loader) : Loader :=
  mkLoader (props l) d (revision l) (error l) (sharedTree l).

Definition set_revision (r : option Revision) (l : Loader) : Loader :=
  mkLoader (props l) (document l) r (error l) (sharedTree l).

Definition set_error (e : option Error) (l : Loader) : Loader :=
  mkLoader (props l) (document l) (revision l) e (sharedTree l).

Definition set_sharedTree (t : option NavigationNode) (l : Loader) : Loader :=
  mkLoader (props l) (document l) (revision l) (error l) t.

Definition set_stores (s : Stores) (w : World) : World :=
  mkWorld (loader w) s (mounted w) (sharedTreeCache w) (activeDocument w)
          (history w) (pending w) (nextId w) (settled w) (unhandled w).

Definition set_mounted (b : bool) (w : World) : World :=
  mkWorld (loader w) (stores w) b (sharedTreeCache w) (activeDocument w)
          (history w) (pending w) (nextId w) (settled w) (unhandled w).

Definition cache_put (k : string) (t : option NavigationNode) (w : World) : World :=
  mkWorld (loader w) (stores w) (mounted w) (<[k := t]> (sharedTreeCache w))
          (activeDocument w) (history w) (pending w) (nextId w) (settled w)
          (unhandled w).

(** [ui.setActiveDocument(document)] *)
Definition setActiveDocument (d : Document) (w : World) : World :=
  mkWorld (loader w) (stores w) (mounted w) (sharedTreeCache w) (Some d)
          (history w) (pending w) (nextId w) (settled w) (unhandled w).

(** [history.push] / [history.replace] *)
Definition navigate (op : NavOp) (w : World) : World :=
  mkWorld (loader w) (stores w) (mounted w) (sharedTreeCache w)
          (activeDocument w) (history w ++ [op]) (pending w) (nextId w)
          (settled w) (unhandled w).

Definition set_pending (p : list (nat * Task)) (w : World) : World :=
  mkWorld (loader w) (stores w) (mounted w) (sharedTreeCache w)
          (activeDocument w) (history w) p (nextId w) (settled w) (unhandled w).

(** Suspend under a fresh identifier. *)
Definition spawn (t : Task) (w : World) : World :=
  mkWorld (loader w) (stores w) (mounted w) (sharedTreeCache w)
          (activeDocument w) (history w) (pending w ++ [(nextId w, t)])
          (S (nextId w)) (settled w) (unhandled w).

(** Suspend again under the identifier of the running call. *)
Definition suspend (k : nat) (t : Task) (w : World) : World :=
  set_pending (pending w ++ [(k, t)]) w.

Definition settle (k : nat) (r : option Error) (w : World) : World :=
  mkWorld (loader w) (stores w) (mounted w) (sharedTreeCache w)
          (activeDocument w) (history w) (pending w) (nextId w)
          (settled w ++ [(k, r)]) (unhandled w).

Definition report_unhandled (e : Error) (w : World) : World :=
  mkWorld (loader w) (stores w) (mounted w) (sharedTreeCache w)
          (activeDocument w) (history w) (pending w) (nextId w) (settled w)
          (unhandled w ++ [e]).

Fixpoint lookup_task (k : nat) (p : list (nat * Task)) : option Task :=
  match p with
  | [] => None
  | (k', t) :: rest => if bool_decide (k' = k) then Some t else lookup_task k rest
  end.

Fixpoint remove_task (k : nat) (p : list (nat * Task)) : list (nat * Task) :=
  match p with
  | [] => []
  | (k', t) :: rest =>
      if bool_decide (k' = k) then rest else (k', t) :: remove_task k rest
  end.

Definition resume (k : nat) (w : World) : World :=
  set_pending (remove_task k (pending w)) w.

(** *** The component's methods *)

Section Component.
Context `{Helpers}.

(** [get isEditing()] *)
Definition isEditing (l : Loader) : bool :=
  bool_decide (match_path (props l) = matchDocumentEdit).

(** [revisionId && revisionId !== "latest"] *)
Definition wantsRevision (rev : option string) : bool :=
  Js.truthy rev && negb (Js.strict_eq rev (Some "latest")).

(** [loadRevision], up to its [await]: it reads the revision id from the
    props of the moment it is called. *)
Definition loadRevision_call (k : option nat)
           (awaitedBy : option (option string * option string)) (w : World)
  : World :=
  let t := FetchingRevision (revisionId (params (props (loader w)))) awaitedBy in
  match k with
  | Some k => suspend k t w
  | None => spawn t w
  end.

(** [loadDocument], from its entry to the [await] of [documents.fetch]. *)
Definition loadDocument_call (w : World) : World :=
  let p := params (props (loader w)) in
  let w1 := match document (loader w) with
            | Some d => setActiveDocument d w
            | None => w
            end in
  spawn (FetchingDocument (shareId p) (documentSlug p) (revisionId p)) w1.

(** [loadDocument] after its [try] block (source lines 188-222), run by the
    call [k] whose captured parameters are [sh] and [rev]. *)
Definition loadDocument_finish (k : nat) (sh rev : option string) (w : World)
  : World :=
  match document (loader w) with
  | None => settle k None w
  | Some d =>
      let can := policies_abilities (stores w) (id d) in
      let w1 := setActiveDocument d w in
      if negb (can_update can) && isEditing (loader w1)
      then settle k None (navigate (Push (url d)) w1)
      else
        let w2 := if can_read can then spawn (FetchingShare (id d)) w1 else w1 in
        let isMove := Js.endsWith (pathname (props (loader w2))) "move" in
        let canRedirect :=
          negb (Js.truthy rev) && negb isMove && negb (Js.truthy sh) in
        let w3 :=
          if canRedirect
          then
            let canonicalUrl :=
              updateDocumentUrl (match_url (props (loader w2))) d in
            if negb (bool_decide (pathname (props (loader w2)) = canonicalUrl))
            then navigate (Replace canonicalUrl) w2
            else w2
          else w2 in
        settle k None w3
  end.

(** The continuation of [loadDocument] when [documents.fetch] settles. *)
Definition documentFetched (k : nat) (sh rev : option string)
           (r : Error + Response) (w : World) : World :=
  match r with
  | inr response =>
      let d := response_document response in
      let w1 := with_loader (set_sharedTree (response_sharedTree response)) w in
      let w2 := with_loader (set_document (Some d)) w1 in
      let w3 := cache_put (id d) (response_sharedTree response) w2 in
      if wantsRevision rev
      then loadRevision_call (Some k) (Some (sh, rev)) w3
      else loadDocument_finish k sh rev (with_loader (set_revision None) w3)
  | inl err => settle k None (with_loader (set_error (Some err)) w)
  end.

(** The continuation of [loadRevision] when [revisions.fetch] settles, and of
    the [loadDocument] that awaits it, if any. *)
Definition revisionFetched (k : nat)
           (awaitedBy : option (option string * option string))
           (r : Error + Revision) (w : World) : World :=
  match r, awaitedBy with
  | inr rv, Some (sh, rev) =>
      loadDocument_finish k sh rev (with_loader (set_revision (Some rv)) w)
  | inr rv, None => settle k None (with_loader (set_revision (Some rv)) w)
  | inl err, Some _ => settle k None (with_loader (set_error (Some err)) w)
  | inl err, None => report_unhandled err (settle k (Some err) w)
  end.

(** The handler chained on [shares.fetch] with [.catch]. *)
Definition shareFetched (r : Error + unit) (w : World) : World :=
  match r with
  | inr _ => w
  | inl err => if isNotFound err then w else report_unhandled err w
  end.

Definition componentDidMount (w : World) : World :=
  let slug := documentSlug (params (props (loader w))) in
  let d := documents_getByUrl (stores w) slug in
  let w1 := with_loader (set_document d) w in
  let tree := match d with
              | Some d => default None (sharedTreeCache w !! id d)
              | None => None
              end in
  loadDocument_call (set_mounted true (with_loader (set_sharedTree tree) w1)).

Definition componentDidUpdate (prevProps : Props) (w : World) : World :=
  let w1 :=
    match document (loader w) with
    | Some d =>
        if negb (policies_get (stores w) (id d))
           && negb (bool_decide (is_Some (error (loader w))))
           && Js.truthy (auth_user_id (stores w))
        then loadDocument_call w
        else w
    | None => w
    end in
  let rev := revisionId (params (props (loader w1))) in
  if negb (Js.strict_eq (revisionId (params prevProps)) rev) && wantsRevision rev
  then loadRevision_call None None w1
  else w1.

(** *** The search helper *)

(** One entry of the list [onSearchLink] resolves to. *)
Record SearchResult := mkSearchResult {
  result_title : string;
  result_subtitle : string;
  result_url : string
}.

Definition toSearchResult (d : Document) : SearchResult :=
  mkSearchResult (title d)
                 ("Updated " +:+ formatDistanceToNow (updatedAt d))
                 (url d).

(** lodash's [sortBy]: a stable sort into ascending order of the iteratee's
    value.  Each element is inserted in front of the first element of the
    already sorted tail whose key is not smaller. *)
Fixpoint insertBy {A} (key : A -> Z) (x : A) (l : list A) : list A :=
  match l with
  | [] => [x]
  | y :: l' =>
      if (key x <=? key y)%Z then x :: y :: l' else y :: insertBy key x l'
  end.

Definition sortBy {A} (key : A -> Z) (l : list A) : list A :=
  foldr (insertBy key) [] l.

(** The order [sortBy] sorts into. *)
Definition keyLe {A} (key : A -> Z) (x y : A) : Prop := (key x <= key y)%Z.

(** The shape of a two-valued iteratee: [test(x) ? -1 : 1]. *)
Definition rankOf {A} (p : A -> bool) (x : A) : Z :=
  if p x then (-1)%Z else 1%Z.

(** [deburr(title).toLowerCase().startsWith(deburr(term).toLowerCase())] *)
Definition titleStartsWith (term : string) (r : SearchResult) : bool :=
  Js.startsWith (toLowerCase (deburr (result_title r)))
                (toLowerCase (deburr term)).

(** The iteratee handed to [sortBy]. *)
Definition searchRank (term : string) (r : SearchResult) : Z :=
  if titleStartsWith term r then (-1)%Z else 1%Z.

(** The two calls [onSearchLink] awaits on the documents store. *)
Record DocumentsStore := mkDocumentsStore {
  documents_fetch : string -> Error + Response;
  documents_searchTitles : string -> Error + list Document
}.

(** The default search, source lines 119-139. *)
Definition searchByTitle (documents : DocumentsStore) (term : string)
  : Error + list SearchResult :=
  match documents_searchTitles documents term with
  | inr results => inr (sortBy (searchRank term) (map toSearchResult results))
  | inl err => inl err
  end.

Definition onSearchLink (documents : DocumentsStore) (term : string)
  : Error + list SearchResult :=
  if isInternalUrl term
  then
    match documents_fetch documents (parseDocumentSlug term) with
    | inr response => inr [toSearchResult (response_document response)]
    | inl err =>
        if isNotFound err then searchByTitle documents term else inl err
    end
  else searchByTitle documents term.

(** *** The event loop

    An event runs one piece of the component's own code up to its next
    [await].  A re-render, React's on new props or mobx-react's after an
    observable field or store has changed, is the event [Render]: it is not
    folded into the piece that made the change.  On a mounted view mobx-react
    re-renders as soon as an observable field is assigned, so the
    [componentDidUpdate] of that re-render, with the reload it may start, runs
    before the rest of the piece; what is proved of one piece is what that
    piece itself writes. *)

Inductive Event :=
| Mount
| Render (p : Props)               (* new props, then componentDidUpdate *)
| Unmount                          (* the component defines no unmount hook *)
| StoresChanged (s : Stores)
| DocumentSettled (k : nat) (r : Error + Response)
| RevisionSettled (k : nat) (r : Error + Revision)
| ShareSettled (k : nat) (r : Error + unit).

Definition step (w : World) (e : Event) : World :=
  match e with
  | Mount => componentDidMount w
  | Render p =>
      let prev := props (loader w) in
      componentDidUpdate prev (with_loader (set_props p) w)
  | Unmount => set_mounted false w
  | StoresChanged s => set_stores s w
  | DocumentSettled k r =>
      match lookup_task k (pending w) with
      | Some (FetchingDocument sh slug rev) =>
          documentFetched k sh rev r (resume k w)
      | _ => w
      end
  | RevisionSettled k r =>
      match lookup_task k (pending w) with
      | Some (FetchingRevision arg awaitedBy) =>
          revisionFetched k awaitedBy r (resume k w)
      | _ => w
      end
  | ShareSettled k r =>
      match lookup_task k (pending w) with
      | Some (FetchingShare _) => shareFetched r (resume k w)
      | _ => w
      end
  end.

Definition run (w : World) (es : list Event) : World := foldl step w es.

(** *** Observations on a run *)

(** The addresses handed to [history.replace], oldest first. *)
Definition replacements (h : list NavOp) : list string :=
  omap (fun op => match op with Replace a => Some a | Push _ => None end) h.

(** The addresses handed to [history.push], oldest first. *)
Definition pushes (h : list NavOp) : list string :=
  omap (fun op => match op with Push a => Some a | Replace _ => None end) h.

Definition settlesRevision (e : Event) : bool :=
  match e with
  | RevisionSettled _ _ => true
  | _ => false
  end.

(** A component instance that React has constructed but not mounted yet. *)
Definition initialWorld (p : Props) (s : Stores) : World :=
  mkWorld (mkLoader p None None None None) s false ∅ None [] [] 0 [] [].

End Component.

End DataLoader.

(** ** Concrete collaborators and inputs *)

Module Examples.

Import DataLoader.

(** ASCII case folding. *)
Definition lowerAscii (c : Ascii.ascii) : Ascii.ascii :=
  let n := Ascii.nat_of_ascii c in
  if (65 <=? n)%nat && (n <=? 90)%nat then Ascii.ascii_of_nat (n + 32) else c.

Fixpoint asciiLowerCase (s : string) : string :=
  match s with
  | EmptyString => EmptyString
  | String c s' => String (lowerAscii c) (asciiLowerCase s')
  end.

Definition isSlugChar (c : Ascii.ascii) : bool :=
  let n := Ascii.nat_of_ascii c in
  ((48 <=? n)%nat && (n <=? 57)%nat) || ((65 <=? n)%nat && (n <=? 90)%nat)
  || ((97 <=? n)%nat && (n <=? 122)%nat)
  || bool_decide (n = 45) || bool_decide (n = 95) || bool_decide (n = 126).

Fixpoint dropSlug (s : string) : string :=
  match s with
  | EmptyString => EmptyString
  | String c s' => if isSlugChar c then dropSlug s' else s
  end.

(** Helpers for ASCII titles and for addresses that start with [/doc/<slug>]:
    [deburr] leaves ASCII text alone; an internal address starts with a slash;
    [updateDocumentUrl] puts the document's url in the place of the leading
    [/doc/<slug>] of the old address and keeps what follows. *)
#[export] Instance asciiHelpers : Helpers := {|
  isInternalUrl := fun term => Js.startsWith term "/";
  parseDocumentSlug := fun term =>
    String.substring 5 (String.length term - 5) term;
  deburr := fun s => s;
  toLowerCase := asciiLowerCase;
  formatDistanceToNow := fun _ => "1 day ago";
  updateDocumentUrl := fun oldUrl d =>
    if Js.startsWith oldUrl "/doc/"
    then url d +:+ dropSlug (String.substring 5 (String.length oldUrl - 5) oldUrl)
    else oldUrl;
  matchDocumentEdit := "/doc/:documentSlug/edit"
|}.

Definition docA : Document :=
  mkDocument "id-a" "/doc/doc-a" "Doc A" "2021-03-01" "col-1" None.

Definition docB : Document :=
  mkDocument "id-b" "/doc/doc-b" "Doc B" "2021-03-02" "col-1" None.

Definition respA : Response := mkResponse docA None.
Definition respB : Response := mkResponse docB None.

Definition propsFor (slug : string) (rev : option string) : Props :=
  mkProps (mkParams None slug rev) "/doc/:documentSlug" ("/doc/" +:+ slug)
          ("/doc/" +:+ slug).

Definition editPropsFor (slug : string) : Props :=
  mkProps (mkParams None slug None) "/doc/:documentSlug/edit"
          ("/doc/" +:+ slug +:+ "/edit") ("/doc/" +:+ slug +:+ "/edit").

Definition readOnly : Abilities := mkAbilities true false false.
Definition fullAccess : Abilities := mkAbilities true true true.

(** Both documents are in the documents store already; no policy has been
    loaded for either; a user is signed in. *)
Definition storesWith (can : Abilities) : Stores :=
  mkStores (fun slug => if bool_decide (slug = "doc-a") then Some docA
                        else if bool_decide (slug = "doc-b") then Some docB
                        else None)
           (fun _ => false)
           (fun _ => can)
           (Some "user-1").

Definition emptyStores (can : Abilities) : Stores :=
  mkStores (fun _ => None) (fun _ => false) (fun _ => can) (Some "user-1").

Definition historyPropsFor (slug rev : string) : Props :=
  mkProps (mkParams None slug (Some rev))
          "/doc/:documentSlug/history/:revisionId?"
          ("/doc/" +:+ slug +:+ "/history/" +:+ rev)
          ("/doc/" +:+ slug +:+ "/history/" +:+ rev).

Definition rev1 : Revision := mkRevision "rev-1" "id-a".

(** Mounted on [doc-a], then re-rendered for [doc-b] before the first fetch
    has completed: call 0 fetches [doc-a], call 1 fetches [doc-b]. *)
Definition twoRequests : World :=
  run (initialWorld (propsFor "doc-a" None) (storesWith fullAccess))
      [Mount; Render (propsFor "doc-b" None)].

(** Mounted on [doc-a] with nothing in the stores: call 0 is in flight. *)
Definition oneRequest (can : Abilities) : World :=
  run (initialWorld (propsFor "doc-a" None) (emptyStores can)) [Mount].

(** The address still carries the slug the document had before it was
    renamed. *)
Definition staleSlugRequest (can : Abilities) : World :=
  run (initialWorld (propsFor "old-a" None) (emptyStores can)) [Mount].

Definition staleSlugEdit (can : Abilities) : World :=
  run (initialWorld (editPropsFor "old-a") (emptyStores can)) [Mount].

Definition staleSlugLatest : World :=
  run (initialWorld (historyPropsFor "old-a" "latest") (emptyStores fullAccess))
      [Mount].

Definition editRequest (can : Abilities) : World :=
  run (initialWorld (editPropsFor "doc-a") (emptyStores can)) [Mount].

(** Revision [rev-1] of [doc-a] has been loaded; the view then goes back to
    the plain document and a new fetch, call 2, is in flight. *)
Definition afterRevisionView : World :=
  run (initialWorld (historyPropsFor "doc-a" "rev-1") (storesWith fullAccess))
      [Mount; DocumentSettled 0 (inr respA); RevisionSettled 0 (inr rev1);
       Render (propsFor "doc-a" None)].

(** The view of revision [rev-1] of [doc-a], not mounted yet. *)
Definition revisionViewOfDocA : World :=
  initialWorld (historyPropsFor "doc-a" "rev-1") (emptyStores fullAccess).

(** The document of the revision view arrives; the view is re-rendered for
    the plain [doc-b] while the revision of the first request is still in
    flight; [doc-b] arrives. *)
Definition plainDocBResolved : list Event :=
  [Mount; DocumentSettled 0 (inr respA); Render (propsFor "doc-b" None);
   DocumentSettled 1 (inr respB)].

Definition pinnedRequest : World :=
  run (initialWorld (historyPropsFor "old-a" "rev-1") (emptyStores fullAccess))
      [Mount].

(** The titles of the search example. *)
Definition titled (slug t : string) : Document :=
  mkDocument ("id-" +:+ slug) ("/doc/" +:+ slug) t "2021-03-01" "col-1" None.

Definition searchStore (lookup : Error + Response) : DocumentsStore :=
  mkDocumentsStore
    (fun _ => lookup)
    (fun _ => inr [titled "plan" "Project Plan";
                   titled "proposal" "Approved Proposal";
                   titled "notes" "proactive notes"]).

End Examples.

Module SidebarExamples.

Import CollectionLink.

(** A stand-in for the key allocator, enough to evaluate the component: it
    extends the lower key by one digit and returns that key when it lies
    strictly between the bounds; otherwise the call fails. *)
Definition appendKey (lower upper : option string) : option string :=
  let candidate := default "" lower +:+ "V" in
  if match lower with Some a => String.ltb a candidate | None => true end
     && match upper with Some b => String.ltb candidate b | None => true end
  then Some candidate
  else None.

Lemma appendKey_between (lower upper : option string) (key : string) :
  appendKey lower upper = Some key -> strictlyBetween lower key upper.
Proof.
  unfold appendKey, strictlyBetween.
  destruct (_ && _) eqn:E; [|discriminate].
  intros [= <-]. apply andb_true_iff in E. destruct E as [Hl Hu].
  split; intros x ->; assumption.
Qed.

#[export] Instance appendKeys : OrderKeys := {|
  fractionalIndex := appendKey;
  fractionalIndex_between := appendKey_between
|}.

Definition engineering : Collection := mkCollection "col-eng" "P" (Some "read") "index".
Definition design : Collection := mkCollection "col-des" "h" (Some "read_write") "index".
Definition vault : Collection := mkCollection "col-vault" "r" None "index".

Definition allCollections : list Collection := [engineering; design; vault].

(** A collection whose order key equals that of [design]. *)
Definition twin : Collection := mkCollection "col-twin" "h" (Some "read") "index".

Definition storesAt (active : option string) (query : string) : Stores :=
  mkStores active query
           (fun cid => List.find (fun c => bool_decide (id c = cid)) allCollections)
           (fun _ => mkAbilities true true true).

Definition linkOf (c : Collection) (below : option Collection) (dragging : bool)
  : Props := mkProps c below dragging.

Definition docInEngineering : DocumentItem := mkDocumentItem "doc-1" "col-eng".
Definition docInVault : DocumentItem := mkDocumentItem "doc-2" "col-vault".

Definition collapsed : State := mkState false false None.
Definition unfolded : State := mkState true false None.

End SidebarExamples.

(** ** What the components render *)

Module CollectionLinkView.

Import CollectionLink.

(** The parts of the rendered tree that depend on the component's state. *)
Record View := mkView {
  showsReorderCursor : bool;       (* the top-edge [DropCursor] *)
  showsCollectionCursor : bool;    (* the between-collections [DropCursor] *)
  showsDocuments : bool;           (* the [DocumentLink] rows *)
  showActions : bool;
  dialogOpen : bool;               (* [Modal isOpen] *)
  dialogItem : option DocumentItem (* [DocumentReparent item] *)
}.

(** [collection.sort.field === "index"] *)
Definition manualSort (props : Props) : bool :=
  bool_decide (sort_field (collection props) = "index").

(** The returned tree; [menuOpen] is the first [useBoolean]. *)
Definition render (props : Props) (menuOpen : bool) (st : State) : View :=
  mkView (expanded st && manualSort props)
         (isDraggingAnyCollection props)
         (expanded st)
         (menuOpen || expanded st)
         (permissionOpen st)
         (itemRef st).

(** The drag source: [canDrag] and the item [item()] returns. *)
Definition canDrag (props : Props) (stores : Stores) : bool :=
  can_move (abilities stores (id (collection props))).

Definition dragItem (props : Props) : CollectionItem :=
  mkCollectionItem (id (collection props)).

(** The store calls a gesture of this link may make for a dragged document:
    moves of that very document into this very collection. *)
Definition movesOnly (props : Props) (item : DocumentItem) (calls : list StoreCall)
  : Prop :=
  Forall (fun call =>
            exists position,
              call = DocumentsMove (item_id item) (id (collection props))
                                   None position) calls.

End CollectionLinkView.

Module DataLoaderView.

Import DataLoader.

(** [auth.team], as far as [render] reads it. *)
Record Team := mkTeam {
  collaborativeEditing : bool
}.

(** The argument [render] hands to [children]; the two callbacks
    [onSearchLink] and [onCreateLink] are the methods themselves. *)
Record ChildProps := mkChildProps {
  child_document : Document;
  child_revision : option Revision;
  child_abilities : Abilities;
  child_isEditing : bool;
  child_readOnly : bool;
  child_sharedTree : option NavigationNode
}.

Inductive Rendered :=
| ErrorOffline
| Error404
| Loading (hideSidebar : bool)
| Children (key : string) (hideSidebar : bool) (c : ChildProps).

(** [error instanceof OfflineError] *)
Definition isOffline (e : Error) : bool :=
  match e with
  | OfflineError => true
  | _ => false
  end.

(** What [documents.create] is called with. *)
Record CreateParams := mkCreateParams {
  create_collectionId : string;
  create_parentDocumentId : option string;
  create_title : string;
  create_text : string
}.

Section Component.
Context `{Helpers}.

(** [document.isArchived], a getter of the document model. *)
Variable isArchived : Document -> bool.

Definition render (team : option Team) (w : World) : Rendered :=
  match error (loader w) with
  | Some e => if isOffline e then ErrorOffline else Error404
  | None =>
      match document (loader w), team with
      | Some d, Some t =>
          let abilities := policies_abilities (stores w) (id d) in
          let key := if collaborativeEditing t then ""
                     else if isEditing (loader w) then "editing"
                     else "read-only" in
          Children key (isEditing (loader w))
            (mkChildProps d (revision (loader w)) abilities
               (isEditing (loader w))
               (negb (isEditing (loader w)) || negb (can_update abilities)
                || isArchived d)
               (sharedTree (loader w)))
      | _, _ => Loading (isEditing (loader w))
      end
  end.

(** [onCreateLink]: [invariant] throws when no document is loaded. *)
Definition onCreateLink (create : CreateParams -> Error + Document)
           (l : Loader) (newTitle : string) : Error + string :=
  match document l with
  | None => inl (OtherError "document must be loaded to create link")
  | Some d =>
      match create (mkCreateParams (collectionId d) (parentDocumentId d)
                                   newTitle "") with
      | inr newDocument => inr (url newDocument)
      | inl err => inl err
      end
  end.

End Component.

(** *** Bookkeeping of suspended calls *)

Definition isDocumentFetch (kt : nat * Task) : bool :=
  match snd kt with
  | FetchingDocument _ _ _ => true
  | _ => false
  end.

(** The number of [documents.fetch] calls of [loadDocument] still in flight. *)
Definition documentFetches (w : World) : nat :=
  length (List.filter isDocumentFetch (pending w)).

(** The guard of the reload in [componentDidUpdate]. *)
Definition reloads (w : World) : bool :=
  match document (loader w) with
  | Some d =>
      negb (policies_get (stores w) (id d))
      && negb (bool_decide (is_Some (error (loader w))))
      && Js.truthy (auth_user_id (stores w))
  | None => false
  end.

(** A component instance constructed after [earlier] in the same page: the
    module-level [sharedTreeCache], the ui store and the router history are
    shared, the instance fields are fresh. *)
Definition laterInstance (p : Props) (s : Stores) (earlier : World) : World :=
  mkWorld (mkLoader p None None None None) s false (sharedTreeCache earlier)
          (activeDocument earlier) (history earlier) [] 0 [] [].

(** Identifiers of suspended calls are distinct and below the next one. *)
Definition wellFormed (w : World) : Prop :=
  NoDup (map fst (pending w))
  /\ Forall (fun k => k < nextId w) (map fst (pending w)).

End DataLoaderView.

(** ** Further concrete inputs *)

Module SidebarCases.

Import CollectionLink.

(** Stores in which the user may read but not update any collection. *)
Definition lockedStores : Stores :=
  mkStores None "" (fun _ => None) (fun _ => mkAbilities true false false).

End SidebarCases.

Module LoaderCases.

Import DataLoader DataLoaderView Examples.

Definition neverArchived (d : Document) : bool := false.

Definition acme : Team := mkTeam false.

(** [doc-a] has been fetched on a cold mount; its share fetch is in flight. *)
Definition loadedDocA : World :=
  run (oneRequest fullAccess) [DocumentSettled 0 (inr respA)].

(** The fetch of [doc-a] has failed with the transport unreachable. *)
Definition failedOffline : World :=
  run (oneRequest fullAccess) [DocumentSettled 0 (inl OfflineError)].

(** [doc-a] as a shared document, with its navigation tree. *)
Definition treeA : NavigationNode := NavNode "id-a" "Doc A" "/doc/doc-a" [].

Definition sharedRespA : Response := mkResponse docA (Some treeA).

(** A documents store whose [create] always succeeds. *)
Definition createIn (args : CreateParams) : Error + Document :=
  inr (mkDocument "id-new" "/doc/new-doc" (create_title args) "2021-03-03"
                  (create_collectionId args) (create_parentDocumentId args)).

End LoaderCases.

(** * Properties of CollectionLink *)

Module CollectionLinkSpec.

Import CollectionLink.

Section Facts.
Context `{OrderKeys}.

Lemma strict_eq_true (a b : option string) : Js.strict_eq a b = true <-> a = b.
Proof. unfold Js.strict_eq. apply bool_decide_eq_true. Qed.

Lemma needsPermissionDialog_spec (props : Props) (source : option Collection) :
  needsPermissionDialog props source = true <->
  exists prev, source = Some prev /\ permission prev = None
               /\ permission (collection props) <> None.
Proof.
  unfold needsPermissionDialog, Js.strict_eq. split.
  - destruct source as [prev|]; [|discriminate].
    rewrite andb_true_iff, negb_true_iff, bool_decide_eq_true, bool_decide_eq_false.
    intros [Hnull Hdiff]. exists prev. repeat split; [assumption|].
    congruence.
  - intros (prev & -> & Hnull & Htarget).
    rewrite andb_true_iff, negb_true_iff, bool_decide_eq_true, bool_decide_eq_false.
    split; congruence.
Qed.

Lemma indexOf_collections_move (cid k : string) (cs : list Collection) :
  is_Some (indexOf cid cs) -> indexOf cid (collections_move cid k cs) = Some k.
Proof.
  unfold indexOf, collections_move.
  induction cs as [|c cs IH]; simpl.
  - intros [x Hx]. discriminate.
  - destruct (bool_decide (id c = cid)) eqn:E; simpl.
    + rewrite E. reflexivity.
    + rewrite E. exact IH.
Qed.

Lemma indexOf_collections_move_other (cid other k : string) (cs : list Collection) :
  other <> cid -> indexOf other (collections_move cid k cs) = indexOf other cs.
Proof.
  intros Hne. unfold indexOf, collections_move.
  induction cs as [|c cs IH]; simpl; [reflexivity|].
  destruct (bool_decide (id c = cid)) eqn:E; simpl.
  - apply bool_decide_eq_true in E.
    rewrite (bool_decide_eq_false_2 (id c = other)) by congruence. exact IH.
  - destruct (bool_decide (id c = other)); [reflexivity|exact IH].
Qed.

(** C6.  The expanded flag starts as (this collection is the active one).
    Under the starred view the effect leaves the whole component state as it
    was, whether a drag is in progress or not and whatever the active
    collection is; otherwise the flag becomes false for every collection while
    any collection is dragged, and (this collection's id equals the active
    collection id) when none is. *)
Theorem expansion_controller (props : Props) (stores : Stores) (st : State) :
  (expanded (initialState props stores) = true
     <-> Some (id (collection props)) = activeCollectionId stores)
  /\ (search stores = "?starred" -> expandEffect props stores st = st)
  /\ (search stores <> "?starred" -> isDraggingAnyCollection props = true ->
      expanded (expandEffect props stores st) = false)
  /\ (search stores <> "?starred" -> isDraggingAnyCollection props = false ->
      expanded (expandEffect props stores st)
        = bool_decide (Some (id (collection props)) = activeCollectionId stores)).
Proof.
  split; [|split; [|split]].
  - simpl. unfold initialExpanded. apply strict_eq_true.
  - intros Hs. unfold expandEffect. rewrite bool_decide_eq_true_2; done.
  - intros Hs Hd. unfold expandEffect.
    rewrite bool_decide_eq_false_2 by assumption. rewrite Hd. reflexivity.
  - intros Hs Hd. unfold expandEffect.
    rewrite bool_decide_eq_false_2 by assumption. rewrite Hd. reflexivity.
Qed.

(** The order of keys is transitive and irreflexive, so no key lies strictly
    between a key and one that is not above it: the allocator cannot return
    there. *)
Lemma fractionalIndex_unordered (lower upper : string) :
  String.ltb lower upper = false ->
  fractionalIndex (Some lower) (Some upper) = None.
Proof.
  intros Hnot.
  destruct (fractionalIndex (Some lower) (Some upper)) as [key|] eqn:E;
    [|reflexivity].
  destruct (fractionalIndex_between _ _ _ E) as [Hl Hu].
  specialize (Hl lower eq_refl). specialize (Hu upper eq_refl).
  unfold String.ltb in *.
  destruct (String.compare lower key) eqn:C1; try discriminate.
  destruct (String.compare key upper) eqn:C2; try discriminate.
  apply OrderedTypeEx.String_as_OT.cmp_lt in C1, C2.
  pose proof (OrderedTypeEx.String_as_OT.lt_trans _ _ _ C1 C2) as Hlt.
  apply OrderedTypeEx.String_as_OT.cmp_lt in Hlt.
  unfold OrderedTypeEx.String_as_OT.cmp in Hlt. rewrite Hlt in Hnot.
  discriminate.
Qed.

(** C7 (amended).  A document dropped on the body zone of the collection it
    already belongs to causes no store call and no state change; a collection
    dragged over itself, or over the target whose below neighbour it is, is
    refused by [canDrop] and the gesture does nothing.  An accepted
    collection drop calls [fractionalIndex(target.index, below.index or
    null)]: when the allocator returns a key, that key lies strictly between
    the two and [collections.move] makes it the dragged collection's order key
    in the store; when the allocator fails, as it must when the target's key
    is not below the neighbour's key, no store call is made. *)
Theorem drop_guards (props : Props) (stores : Stores) (st : State) :
  (forall (item : DocumentItem) (didDrop : bool),
      item_collectionId item = id (collection props) ->
      drop props stores didDrop item st = (st, []))
  /\ (forall item : CollectionItem,
        dragged_id item = id (collection props) ->
        dropToReorderCollection_canDrop props item = false
        /\ collectionDropGesture props item st = (st, []))
  /\ (forall (item : CollectionItem) (below : Collection),
        belowCollection props = Some below ->
        dragged_id item = id below ->
        dropToReorderCollection_canDrop props item = false
        /\ collectionDropGesture props item st = (st, []))
  /\ (forall item : CollectionItem,
        dropToReorderCollection_canDrop props item = true ->
        let lower := Some (index (collection props)) in
        let upper := index <$> belowCollection props in
        (forall key : string,
            fractionalIndex lower upper = Some key ->
            collectionDropGesture props item st
              = (st, [CollectionsMove (dragged_id item) key])
            /\ strictlyBetween lower key upper
            /\ forall cs : list Collection,
                is_Some (indexOf (dragged_id item) cs) ->
                indexOf (dragged_id item)
                        (applyCollectionCalls
                           (snd (collectionDropGesture props item st)) cs)
                  = Some key)
        /\ (fractionalIndex lower upper = None ->
            collectionDropGesture props item st = (st, []))
        /\ (forall below : Collection,
              belowCollection props = Some below ->
              String.ltb (index (collection props)) (index below) = false ->
              collectionDropGesture props item st = (st, []))).
Proof.
  split; [|split; [|split]].
  - intros item didDrop Hsame. unfold drop.
    destruct didDrop; [reflexivity|].
    rewrite bool_decide_eq_true_2 by congruence. reflexivity.
  - intros item Hself.
    assert (Hno : dropToReorderCollection_canDrop props item = false).
    { unfold dropToReorderCollection_canDrop.
      rewrite bool_decide_eq_true_2 by congruence. reflexivity. }
    split; [exact Hno|]. unfold collectionDropGesture. rewrite Hno. reflexivity.
  - intros item below Hbelow Hsame.
    assert (Hno : dropToReorderCollection_canDrop props item = false).
    { unfold dropToReorderCollection_canDrop. rewrite Hbelow.
      rewrite (bool_decide_eq_true_2 (dragged_id item = id below)) by assumption.
      apply andb_false_r. }
    split; [exact Hno|]. unfold collectionDropGesture. rewrite Hno. reflexivity.
  - intros item Hyes lower upper.
    assert (Hcall : collectionDropGesture props item st
                    = match fractionalIndex lower upper with
                      | Some key => (st, [CollectionsMove (dragged_id item) key])
                      | None => (st, [])
                      end).
    { unfold collectionDropGesture. rewrite Hyes.
      unfold dropToReorderCollection, belowCollectionIndex, lower, upper.
      destruct (belowCollection props); reflexivity. }
    split; [|split].
    + intros key Hkey. rewrite Hcall, Hkey.
      split; [reflexivity|]. split; [exact (fractionalIndex_between _ _ _ Hkey)|].
      intros cs Hin. simpl. apply indexOf_collections_move, Hin.
    + intros Hnone. rewrite Hcall, Hnone. reflexivity.
    + intros below Hbelow Hnot. rewrite Hcall. unfold lower, upper.
      rewrite Hbelow. simpl.
      rewrite (fractionalIndex_unordered _ _ Hnot). reflexivity.
Qed.

(** C2 (amended).  For a body-zone drop that no nested target has handled, of
    a document whose collection differs from the target: when the source
    collection is known to the collections store, its permission is [null]
    and the target's permission is not [null], the handler makes no store
    call, keeps the item in [itemRef] and opens the permission dialog for the
    target collection; confirming the dialog then moves the document and
    closes it, cancelling closes it without a move.  In every other case,
    also when the source collection is unknown or its permission is a
    non-null scope that differs from the target's, the document is moved at
    once with [documents.move(id, collection.id)], with no position. *)
Theorem drop_reparent (props : Props) (stores : Stores)
        (item : DocumentItem) (st : State) :
  id (collection props) <> item_collectionId item ->
  let source := collections_get stores (item_collectionId item) in
  let privateSource :=
    exists prev, source = Some prev /\ permission prev = None
                 /\ permission (collection props) <> None in
  let move := DocumentsMove (item_id item) (id (collection props)) None None in
  (privateSource ->
   exists st',
     drop props stores false item st = (st', [])
     /\ itemRef st' = Some item
     /\ permissionOpen st' = true
     /\ expanded st' = expanded st
     /\ DocumentReparent_confirm props st' = (handlePermissionClose st', [move])
     /\ DocumentReparent_cancel st' = (handlePermissionClose st', [])
     /\ permissionOpen (handlePermissionClose st') = false)
  /\ (~ privateSource -> drop props stores false item st = (st, [move])).
Proof.
  intros Hdiff source privateSource move. split.
  - intros Hp. apply needsPermissionDialog_spec in Hp.
    exists (handlePermissionOpen (setItemRef item st)).
    unfold drop. rewrite bool_decide_eq_false_2 by assumption.
    fold source. rewrite Hp. repeat split.
  - intros Hnp. unfold drop. rewrite bool_decide_eq_false_2 by assumption.
    fold source.
    destruct (needsPermissionDialog props source) eqn:E; [|reflexivity].
    apply needsPermissionDialog_spec in E. contradiction.
Qed.

End Facts.

Import SidebarExamples.

Lemma expansion_controller_witness :
  expandEffect (linkOf design None true) (storesAt (Some "col-des") "?starred")
               unfolded = unfolded
  /\ expanded (expandEffect (linkOf design None true)
                            (storesAt (Some "col-des") "") unfolded) = false
  /\ expanded (expandEffect (linkOf design None false)
                            (storesAt (Some "col-des") "") collapsed) = true.
Proof.
  split; [|split].
  - apply (expansion_controller (linkOf design None true)
             (storesAt (Some "col-des") "?starred") unfolded). reflexivity.
  - apply (expansion_controller (linkOf design None true)
             (storesAt (Some "col-des") "") unfolded);
      [discriminate|reflexivity].
  - rewrite (proj2 (proj2 (proj2
       (expansion_controller (linkOf design None false)
          (storesAt (Some "col-des") "") collapsed))));
      [reflexivity|discriminate|reflexivity].
Defined.

Lemma drop_guards_witness :
  drop (linkOf engineering (Some design) true) (storesAt None "") false
       docInEngineering collapsed = (collapsed, [])
  /\ dropToReorderCollection_canDrop (linkOf engineering (Some design) true)
                                     (mkCollectionItem "col-eng") = false
  /\ dropToReorderCollection_canDrop (linkOf engineering (Some design) true)
                                     (mkCollectionItem "col-des") = false
  /\ indexOf "col-vault"
       (applyCollectionCalls
          (snd (collectionDropGesture (linkOf engineering (Some design) true)
                  (mkCollectionItem "col-vault") collapsed))
          allCollections) = Some "PV"
  /\ strictlyBetween (Some "P") "PV" (Some "h").
Proof.
  pose proof (drop_guards (linkOf engineering (Some design) true)
                (storesAt None "") collapsed) as (Hdoc & Hself & Hbelow & Hok).
  split; [|split; [|split; [|split]]].
  - apply Hdoc. reflexivity.
  - apply (Hself (mkCollectionItem "col-eng")). reflexivity.
  - apply (Hbelow (mkCollectionItem "col-des") design); reflexivity.
  - apply (proj1 (Hok (mkCollectionItem "col-vault") eq_refl) "PV" eq_refl).
    vm_compute. eexists; reflexivity.
  - apply (proj1 (Hok (mkCollectionItem "col-vault") eq_refl) "PV" eq_refl).
Defined.

(** C7 as stated fails.  [design] and its below neighbour [twin] carry the
    same order key.  [vault] dragged over [design] is accepted, since only
    ids are compared; no key lies strictly between the two keys, the
    allocator fails, and the drop makes no store call: the dragged
    collection's order key stays as it was.  This holds for every allocator
    that returns only keys strictly between its bounds. *)
Lemma equal_keys_drop_moves_nothing :
  index design = index twin
  /\ dropToReorderCollection_canDrop (linkOf design (Some twin) true)
                                     (mkCollectionItem "col-vault") = true
  /\ collectionDropGesture (linkOf design (Some twin) true)
                           (mkCollectionItem "col-vault") collapsed
     = (collapsed, [])
  /\ indexOf "col-vault"
       (applyCollectionCalls
          (snd (collectionDropGesture (linkOf design (Some twin) true)
                  (mkCollectionItem "col-vault") collapsed))
          allCollections) = Some "r"
  /\ (forall allocator : OrderKeys,
        @collectionDropGesture allocator (linkOf design (Some twin) true)
                               (mkCollectionItem "col-vault") collapsed
        = (collapsed, [])).
Proof.
  split; [reflexivity|]. split; [reflexivity|]. split; [reflexivity|].
  split; [reflexivity|].
  intros allocator. unfold collectionDropGesture.
  change (dropToReorderCollection_canDrop (linkOf design (Some twin) true)
            (mkCollectionItem "col-vault")) with true.
  unfold dropToReorderCollection, belowCollectionIndex. simpl.
  rewrite (@fractionalIndex_unordered allocator "h" "h" eq_refl). reflexivity.
Qed.

(** C2 as stated fails.  A document of [engineering] (scope ["read"]) dropped
    on [design] (scope ["read_write"]): the source scope differs from the
    target's and is not the null scope, yet the document is moved at once.  A
    document of [vault] (null scope) dropped on [design]: the claim's "every
    other case", yet no move is made and the dialog opens. *)
Lemma drop_scope_counterexample :
  (id design <> item_collectionId docInEngineering
   /\ collections_get (storesAt None "") (item_collectionId docInEngineering)
        = Some engineering
   /\ permission engineering <> permission design
   /\ permission engineering <> None
   /\ drop (linkOf design None false) (storesAt None "") false
           docInEngineering collapsed
        = (collapsed, [DocumentsMove "doc-1" "col-des" None None]))
  /\ (id design <> item_collectionId docInVault
      /\ collections_get (storesAt None "") (item_collectionId docInVault)
           = Some vault
      /\ permission vault = None
      /\ drop (linkOf design None false) (storesAt None "") false
              docInVault collapsed
           = (mkState false true (Some docInVault), [])).
Proof. repeat split; discriminate. Qed.

Lemma drop_reparent_witness :
  exists st',
    drop (linkOf design None false) (storesAt None "") false docInVault collapsed
      = (st', [])
    /\ itemRef st' = Some docInVault
    /\ DocumentReparent_confirm (linkOf design None false) st'
         = (handlePermissionClose st', [DocumentsMove "doc-2" "col-des" None None]).
Proof.
  destruct (drop_reparent (linkOf design None false) (storesAt None "")
              docInVault collapsed) as [Hdialog _]; [discriminate|].
  destruct Hdialog as (st' & Hdrop & Href & _ & _ & Hconfirm & _).
  - exists vault. repeat split. discriminate.
  - exists st'. repeat split; assumption.
Defined.

End CollectionLinkSpec.

(** * Properties of DataLoader *)

Module DataLoaderSpec.

Import DataLoader.

Section Facts.
Context `{Helpers}.

(** *** Suspended calls *)

Lemma lookup_task_app (k : nat) (p q : list (nat * Task)) (t : Task) :
  lookup_task k p = Some t -> lookup_task k (p ++ q) = Some t.
Proof.
  induction p as [|[k' t'] p IH]; simpl; [discriminate|].
  destruct (bool_decide (k' = k)); [trivial|exact IH].
Qed.

Lemma lookup_remove_other (k k' : nat) (p : list (nat * Task)) :
  k' <> k -> lookup_task k' (remove_task k p) = lookup_task k' p.
Proof.
  intros Hne. induction p as [|[k0 t0] p IH]; simpl; [reflexivity|].
  destruct (bool_decide (k0 = k)) eqn:Ek; simpl.
  - apply bool_decide_eq_true in Ek. subst k0.
    rewrite bool_decide_eq_false_2 by congruence. reflexivity.
  - destruct (bool_decide (k0 = k')); [reflexivity|exact IH].
Qed.

(** *** What the tail of [loadDocument] touches *)

Lemma finish_loader (k : nat) (sh rev : option string) (w : World) :
  loader (loadDocument_finish k sh rev w) = loader w.
Proof.
  unfold loadDocument_finish. repeat case_match; reflexivity.
Qed.

Lemma finish_active (k : nat) (sh rev : option string) (w : World) (d : Document) :
  document (loader w) = Some d ->
  activeDocument (loadDocument_finish k sh rev w) = Some d.
Proof.
  intros Hd. unfold loadDocument_finish. rewrite Hd.
  repeat case_match; reflexivity.
Qed.

Lemma finish_cache (k : nat) (sh rev : option string) (w : World) :
  sharedTreeCache (loadDocument_finish k sh rev w) = sharedTreeCache w.
Proof.
  unfold loadDocument_finish. repeat case_match; reflexivity.
Qed.

Lemma finish_settled (k : nat) (sh rev : option string) (w : World) :
  settled (loadDocument_finish k sh rev w) = settled w ++ [(k, None)].
Proof.
  unfold loadDocument_finish. repeat case_match; reflexivity.
Qed.

Lemma finish_unhandled (k : nat) (sh rev : option string) (w : World) :
  unhandled (loadDocument_finish k sh rev w) = unhandled w.
Proof.
  unfold loadDocument_finish. repeat case_match; reflexivity.
Qed.

Lemma finish_pending (k : nat) (sh rev : option string) (w : World)
      (k' : nat) (t : Task) :
  lookup_task k' (pending w) = Some t ->
  lookup_task k' (pending (loadDocument_finish k sh rev w)) = Some t.
Proof.
  intros Ht. unfold loadDocument_finish.
  repeat case_match; simpl; try assumption; apply lookup_task_app, Ht.
Qed.

(** The navigation calls made by the tail of [loadDocument]. *)
Lemma finish_history (k : nat) (sh rev : option string) (w : World) :
  history (loadDocument_finish k sh rev w) =
  history w ++
  match document (loader w) with
  | None => []
  | Some d =>
      if negb (can_update (policies_abilities (stores w) (id d)))
         && isEditing (loader w)
      then [Push (url d)]
      else if negb (Js.truthy rev)
              && negb (Js.endsWith (pathname (props (loader w))) "move")
              && negb (Js.truthy sh)
              && negb (bool_decide
                         (pathname (props (loader w))
                          = updateDocumentUrl (match_url (props (loader w))) d))
      then [Replace (updateDocumentUrl (match_url (props (loader w))) d)]
      else []
  end.
Proof.
  unfold loadDocument_finish.
  destruct (document (loader w)) as [d|]; simpl; [|symmetry; apply app_nil_r].
  destruct (negb (can_update (policies_abilities (stores w) (id d)))
            && isEditing (loader w)); simpl; [reflexivity|].
  destruct (can_read (policies_abilities (stores w) (id d))); simpl;
    destruct (negb (Js.truthy rev)); simpl; try (symmetry; apply app_nil_r);
    destruct (negb (Js.endsWith (pathname (props (loader w))) "move")); simpl;
    try (symmetry; apply app_nil_r);
    destruct (negb (Js.truthy sh)); simpl; try (symmetry; apply app_nil_r);
    destruct (negb (bool_decide _)); simpl; try reflexivity;
    symmetry; apply app_nil_r.
Qed.

(** *** Completion of [documents.fetch] *)

Lemma step_documentSettled (w : World) (k : nat) (sh rev : option string)
      (slug : string) (r : Error + Response) :
  lookup_task k (pending w) = Some (FetchingDocument sh slug rev) ->
  step w (DocumentSettled k r) = documentFetched k sh rev r (resume k w).
Proof. intros Hk. simpl. rewrite Hk. reflexivity. Qed.

Lemma documentFetched_document (k : nat) (sh rev : option string)
      (response : Response) (w : World) :
  document (loader (documentFetched k sh rev (inr response) w))
  = Some (response_document response).
Proof.
  unfold documentFetched.
  destruct (wantsRevision rev); [reflexivity|].
  rewrite finish_loader. reflexivity.
Qed.

Lemma documentFetched_sharedTree (k : nat) (sh rev : option string)
      (response : Response) (w : World) :
  sharedTree (loader (documentFetched k sh rev (inr response) w))
  = response_sharedTree response.
Proof.
  unfold documentFetched.
  destruct (wantsRevision rev); [reflexivity|].
  rewrite finish_loader. reflexivity.
Qed.

Lemma documentFetched_cache (k : nat) (sh rev : option string)
      (response : Response) (w : World) :
  sharedTreeCache (documentFetched k sh rev (inr response) w)
  = <[id (response_document response) := response_sharedTree response]>
      (sharedTreeCache w).
Proof.
  unfold documentFetched.
  destruct (wantsRevision rev); [reflexivity|].
  rewrite finish_cache. reflexivity.
Qed.

Lemma documentFetched_active (k : nat) (sh rev : option string)
      (response : Response) (w : World) :
  wantsRevision rev = false ->
  activeDocument (documentFetched k sh rev (inr response) w)
  = Some (response_document response).
Proof.
  intros Hrev. unfold documentFetched. rewrite Hrev.
  apply finish_active. reflexivity.
Qed.

Lemma documentFetched_pending (k : nat) (sh rev : option string)
      (r : Error + Response) (w : World) (k' : nat) (t : Task) :
  lookup_task k' (pending w) = Some t ->
  lookup_task k' (pending (documentFetched k sh rev r w)) = Some t.
Proof.
  intros Ht. unfold documentFetched. destruct r as [err|response]; [exact Ht|].
  destruct (wantsRevision rev).
  - simpl. apply lookup_task_app, Ht.
  - apply finish_pending. exact Ht.
Qed.

(** *** The resolved revision *)

Lemma loadDocument_call_loader (w : World) :
  loader (loadDocument_call w) = loader w.
Proof. unfold loadDocument_call. destruct (document (loader w)); reflexivity. Qed.

Lemma loadRevision_call_loader (k : option nat)
      (aw : option (option string * option string)) (w : World) :
  loader (loadRevision_call k aw w) = loader w.
Proof. unfold loadRevision_call. destruct k; reflexivity. Qed.

Lemma componentDidUpdate_loader (prev : Props) (w : World) :
  loader (componentDidUpdate prev w) = loader w.
Proof.
  unfold componentDidUpdate.
  repeat first [ rewrite loadRevision_call_loader
               | rewrite loadDocument_call_loader
               | case_match ]; reflexivity.
Qed.

(** Only the completion of a revision fetch can put a revision in place. *)
Lemma step_revision_none (w : World) (e : Event) :
  settlesRevision e = false ->
  revision (loader w) = None ->
  revision (loader (step w e)) = None.
Proof.
  intros He Hnone.
  destruct e as [| p | | s | k r | k r | k r]; try discriminate; unfold step.
  - unfold componentDidMount. rewrite loadDocument_call_loader. exact Hnone.
  - rewrite componentDidUpdate_loader. exact Hnone.
  - exact Hnone.
  - exact Hnone.
  - destruct (lookup_task k (pending w)) as [[sh slug rev|arg aw|did]|];
      try exact Hnone.
    unfold documentFetched. destruct r as [err|response]; [exact Hnone|].
    destruct (wantsRevision rev).
    + rewrite loadRevision_call_loader. exact Hnone.
    + rewrite finish_loader. reflexivity.
  - destruct (lookup_task k (pending w)) as [[sh slug rev|arg aw|did]|];
      try exact Hnone.
    unfold shareFetched. destruct r as [err|u]; [|exact Hnone].
    destruct (isNotFound err); exact Hnone.
Qed.

Lemma run_revision_none (es : list Event) (w : World) :
  forallb (fun e => negb (settlesRevision e)) es = true ->
  revision (loader w) = None ->
  revision (loader (run w es)) = None.
Proof.
  revert w. induction es as [|e es IH]; intros w Hes Hnone; [exact Hnone|].
  simpl in Hes. apply andb_true_iff in Hes. destruct Hes as [He Hes].
  apply negb_true_iff in He.
  change (run w (e :: es)) with (run (step w e) es).
  apply IH; [exact Hes|]. apply step_revision_none; assumption.
Qed.

(** C10 (amended).  When the fetch of a request without a revision id, or
    with the sentinel ["latest"], succeeds, the loader ends the call with
    [revision] reset to none and [document] set to the fetched one, whatever
    revision an earlier request had left in place, and [revision] stays none
    through every later event other than the completion of a revision fetch.
    A revision fetch that is still in flight is not cancelled: whenever one
    completes, its revision is stored, whatever document is held by then. *)
Theorem revision_reset (w : World) (k : nat) (sh rev : option string)
        (slug : string) (response : Response) :
  lookup_task k (pending w) = Some (FetchingDocument sh slug rev) ->
  rev = None \/ rev = Some "latest" ->
  let w' := step w (DocumentSettled k (inr response)) in
  revision (loader w') = None
  /\ document (loader w') = Some (response_document response)
  /\ error (loader w') = error (loader w)
  /\ settled w' = settled w ++ [(k, None)]
  /\ (forall es : list Event,
        forallb (fun e => negb (settlesRevision e)) es = true ->
        revision (loader (run w' es)) = None)
  /\ (forall (w2 : World) (k2 : nat) (arg : option string)
             (awaitedBy : option (option string * option string))
             (rv : Revision),
        lookup_task k2 (pending w2) = Some (FetchingRevision arg awaitedBy) ->
        revision (loader (step w2 (RevisionSettled k2 (inr rv)))) = Some rv
        /\ document (loader (step w2 (RevisionSettled k2 (inr rv))))
           = document (loader w2)).
Proof.
  intros Hk Hrev w'.
  assert (Hnow : revision (loader w') = None
                 /\ document (loader w') = Some (response_document response)
                 /\ error (loader w') = error (loader w)
                 /\ settled w' = settled w ++ [(k, None)]).
  { subst w'. rewrite (step_documentSettled _ _ _ _ _ _ Hk).
    assert (Hno : wantsRevision rev = false)
      by (destruct Hrev; subst; reflexivity).
    unfold documentFetched. rewrite Hno.
    rewrite finish_loader, finish_settled. repeat split. }
  destruct Hnow as (Hr & Hd & He & Hs).
  split; [exact Hr|]. split; [exact Hd|]. split; [exact He|].
  split; [exact Hs|]. split.
  - intros es Hes. apply run_revision_none; assumption.
  - intros w2 k2 arg awaitedBy rv Hk2. unfold step. rewrite Hk2.
    unfold revisionFetched. destruct awaitedBy as [[sh2 rev2]|].
    + rewrite finish_loader. split; reflexivity.
    + split; reflexivity.
Qed.

(** C1 (amended).  The loader keeps no request identity.  Of two requests
    in flight at once, whichever fetch completes last overwrites [document]
    and [sharedTree] with its own response, and the active document too when
    it awaits no revision, whether it was issued before or after the other
    one: visible state follows the order of completion, not of issue. *)
Theorem last_completion_wins (w : World) (k1 k2 : nat)
        (sh1 rev1 sh2 rev2 : option string) (slug1 slug2 : string)
        (r1 r2 : Response) :
  k1 <> k2 ->
  lookup_task k1 (pending w) = Some (FetchingDocument sh1 slug1 rev1) ->
  lookup_task k2 (pending w) = Some (FetchingDocument sh2 slug2 rev2) ->
  let w' := run w [DocumentSettled k2 (inr r2); DocumentSettled k1 (inr r1)] in
  document (loader w') = Some (response_document r1)
  /\ sharedTree (loader w') = response_sharedTree r1
  /\ (wantsRevision rev1 = false ->
      activeDocument w' = Some (response_document r1)).
Proof.
  intros Hne H1 H2 w'. subst w'.
  change (run w [DocumentSettled k2 (inr r2); DocumentSettled k1 (inr r1)])
    with (step (step w (DocumentSettled k2 (inr r2))) (DocumentSettled k1 (inr r1))).
  rewrite (step_documentSettled w _ _ _ _ _ H2).
  assert (H1' : lookup_task k1
                  (pending (documentFetched k2 sh2 rev2 (inr r2) (resume k2 w)))
                = Some (FetchingDocument sh1 slug1 rev1)).
  { apply documentFetched_pending. simpl.
    rewrite lookup_remove_other by assumption. exact H1. }
  rewrite (step_documentSettled _ _ _ _ _ _ H1').
  split; [apply documentFetched_document|].
  split; [apply documentFetched_sharedTree|].
  intros Hrev. apply documentFetched_active, Hrev.
Qed.

(** *** Unmounting *)

Lemma finish_mounted (k : nat) (sh rev : option string) (w : World) :
  mounted (loadDocument_finish k sh rev w) = mounted w.
Proof.
  unfold loadDocument_finish. repeat case_match; reflexivity.
Qed.

(** C5 (amended).  The component defines no unmount hook and keeps no
    cancellation token: a fetch in flight when the view is unmounted still
    completes, without throwing, and writes state.  On success it writes
    [document], [sharedTree] and the shared-tree cache entry, and when no
    revision is awaited also the active document, and the call ends normally;
    on failure it writes [error] and the call ends normally. *)
Theorem completion_after_unmount (w : World) (k : nat) (sh rev : option string)
        (slug : string) (r : Error + Response) :
  lookup_task k (pending w) = Some (FetchingDocument sh slug rev) ->
  let w' := run w [Unmount; DocumentSettled k r] in
  mounted (step w Unmount) = false
  /\ mounted w' = false
  /\ match r with
     | inr response =>
         document (loader w') = Some (response_document response)
         /\ sharedTree (loader w') = response_sharedTree response
         /\ sharedTreeCache w' !! id (response_document response)
            = Some (response_sharedTree response)
         /\ (wantsRevision rev = false ->
             activeDocument w' = Some (response_document response)
             /\ settled w' = settled w ++ [(k, None)])
     | inl err =>
         error (loader w') = Some err
         /\ settled w' = settled w ++ [(k, None)]
     end.
Proof.
  intros Hk w'. subst w'.
  change (run w [Unmount; DocumentSettled k r])
    with (step (set_mounted false w) (DocumentSettled k r)).
  assert (Hk' : lookup_task k (pending (set_mounted false w))
                = Some (FetchingDocument sh slug rev)) by exact Hk.
  rewrite (step_documentSettled _ _ _ _ _ _ Hk').
  split; [reflexivity|].
  destruct r as [err|response].
  - repeat split.
  - rewrite documentFetched_document, documentFetched_sharedTree,
      documentFetched_cache.
    split.
    { unfold documentFetched. destruct (wantsRevision rev).
      - unfold loadRevision_call. reflexivity.
      - rewrite finish_mounted. reflexivity. }
    split; [reflexivity|]. split; [reflexivity|].
    split; [apply lookup_insert_eq|].
    intros Hrev. split; [apply documentFetched_active, Hrev|].
    unfold documentFetched. rewrite Hrev. rewrite finish_settled. reflexivity.
Qed.

(** *** Navigation *)

Lemma replacements_app (h1 h2 : list NavOp) :
  replacements (h1 ++ h2) = replacements h1 ++ replacements h2.
Proof. apply omap_app. Qed.

Lemma pushes_app (h1 h2 : list NavOp) :
  pushes (h1 ++ h2) = pushes h1 ++ pushes h2.
Proof. apply omap_app. Qed.

Lemma finish_stores (k : nat) (sh rev : option string) (w : World) :
  stores (loadDocument_finish k sh rev w) = stores w.
Proof.
  unfold loadDocument_finish. repeat case_match; reflexivity.
Qed.

Lemma wantsRevision_truthy (rev : option string) :
  wantsRevision rev = true -> Js.truthy rev = true.
Proof. unfold wantsRevision. intros Hw. apply andb_true_iff in Hw. tauto. Qed.

Ltac bool_facts :=
  repeat match goal with
         | Hb : bool_decide _ = true |- _ => apply bool_decide_eq_true in Hb
         | Hb : bool_decide _ = false |- _ => apply bool_decide_eq_false in Hb
         end.

(** C3 (amended).  When the fetch of a request succeeds, the loader makes
    exactly one address replacement, to the canonical address, if the request
    carries no revision id at all (the sentinel ["latest"] counts as one), the
    current address does not end in [move], there is no share context, the
    editing-mode downgrade does not fire (the user may update the document or
    the view is not the edit view) and the canonical address differs from the
    current address.  Under any other condition it makes no replacement,
    neither when the fetch completes nor, for a request that awaits a
    revision, when the revision arrives. *)
Theorem canonical_redirect (w : World) (k : nat) (sh rev : option string)
        (slug : string) (response : Response) :
  lookup_task k (pending w) = Some (FetchingDocument sh slug rev) ->
  let d := response_document response in
  let p := props (loader w) in
  let canonical := updateDocumentUrl (match_url p) d in
  let downgraded :=
    can_update (policies_abilities (stores w) (id d)) = false
    /\ match_path p = matchDocumentEdit in
  let eligible :=
    Js.truthy rev = false /\ Js.endsWith (pathname p) "move" = false
    /\ Js.truthy sh = false /\ ~ downgraded /\ pathname p <> canonical in
  let w' := step w (DocumentSettled k (inr response)) in
  (eligible -> replacements (history w') = replacements (history w) ++ [canonical])
  /\ (~ eligible -> replacements (history w') = replacements (history w))
  /\ (forall (w2 : World) (arg : option string) (r : Error + Revision),
        Js.truthy rev = true ->
        lookup_task k (pending w2) = Some (FetchingRevision arg (Some (sh, rev))) ->
        replacements (history (step w2 (RevisionSettled k r)))
        = replacements (history w2)).
Proof.
  intros Hk d p canonical downgraded eligible w'.
  assert (Hmain :
    replacements (history w') = replacements (history w) ++ [canonical] /\ eligible
    \/ replacements (history w') = replacements (history w) /\ ~ eligible).
  { subst w'. rewrite (step_documentSettled _ _ _ _ _ _ Hk).
    unfold documentFetched. destruct (wantsRevision rev) eqn:Hw.
    - right. split; [reflexivity|].
      apply wantsRevision_truthy in Hw. unfold eligible. intros [Ht _]. congruence.
    - match goal with
      | |- context [loadDocument_finish k sh rev ?x] => set (wi := x)
      end.
      rewrite finish_history. unfold isEditing.
      change (document (loader wi)) with (Some (response_document response)).
      change (props (loader wi)) with (props (loader w)).
      change (stores wi) with (stores w).
      change (history wi) with (history w).
      rewrite replacements_app.
      subst eligible downgraded canonical p d.
      destruct (can_update (policies_abilities (stores w)
                              (id (response_document response)))) eqn:Eu;
        destruct (bool_decide (match_path (props (loader w)) = matchDocumentEdit))
          eqn:Ee;
        destruct (Js.truthy rev) eqn:Er;
        destruct (Js.endsWith (pathname (props (loader w))) "move") eqn:Em;
        destruct (Js.truthy sh) eqn:Es;
        destruct (bool_decide
                    (pathname (props (loader w))
                     = updateDocumentUrl (match_url (props (loader w)))
                         (response_document response))) eqn:Ec;
        bool_facts; cbn [negb andb replacements omap app];
        rewrite ?app_nil_r;
        first [ left; split; [reflexivity|]; intuition congruence
              | right; split; [reflexivity|]; intuition congruence ]. }
  split; [|split].
  - intros He. destruct Hmain as [[Hm _]|[_ Hn]]; [exact Hm|contradiction].
  - intros Hn. destruct Hmain as [[_ He]|[Hm _]]; [contradiction|exact Hm].
  - intros w2 arg r Ht Hk2. simpl. rewrite Hk2.
    unfold revisionFetched. destruct r as [err|rv]; [reflexivity|].
    rewrite finish_history, replacements_app. rewrite Ht.
    cbn [loader document set_revision with_loader].
    destruct (document (loader (resume k w2))) as [d2|];
      [|cbn; apply app_nil_r].
    destruct (negb _ && isEditing _); cbn; apply app_nil_r.
Qed.

(** The tail of [loadDocument] makes at most one navigation call: a push of
    the document's url when the downgrade fires, else possibly a replacement
    by the canonical address. *)
Lemma finish_classified (k : nat) (sh rev : option string) (w : World)
      (d : Document) :
  document (loader w) = Some d ->
  let w' := loadDocument_finish k sh rev w in
  let downgraded :=
    can_update (policies_abilities (stores w) (id d)) = false
    /\ match_path (props (loader w)) = matchDocumentEdit in
  (downgraded /\ history w' = history w ++ [Push (url d)])
  \/ (~ downgraded
      /\ (history w' = history w
          \/ history w' = history w
                ++ [Replace (updateDocumentUrl (match_url (props (loader w))) d)])).
Proof.
  intros Hd w' downgraded. subst w' downgraded.
  rewrite finish_history, Hd. unfold isEditing.
  destruct (can_update (policies_abilities (stores w) (id d))) eqn:Eu;
    destruct (bool_decide (match_path (props (loader w)) = matchDocumentEdit))
      eqn:Ee; bool_facts; cbn [negb andb].
  3: left; repeat split; assumption.
  all: right; split; [intuition congruence|];
    destruct (_ && _); [right; reflexivity|left; apply app_nil_r].
Qed.

Lemma loadDocument_call_history (w : World) :
  history (loadDocument_call w) = history w.
Proof. unfold loadDocument_call. destruct (document (loader w)); reflexivity. Qed.

Lemma loadRevision_call_history (k : option nat)
      (aw : option (option string * option string)) (w : World) :
  history (loadRevision_call k aw w) = history w.
Proof. unfold loadRevision_call. destruct k; reflexivity. Qed.

Lemma componentDidUpdate_history (prev : Props) (w : World) :
  history (componentDidUpdate prev w) = history w.
Proof.
  unfold componentDidUpdate.
  repeat first [ rewrite loadRevision_call_history
               | rewrite loadDocument_call_history
               | case_match ]; reflexivity.
Qed.

(** C4 (amended).  The loader changes the address in two places only.  The
    canonical reconciliation is a replacement.  The editing-mode downgrade
    (edit view, no [update] capability) is a push of the document's url, not a
    replacement, and it is made whenever the fetch of a request that awaits no
    revision succeeds in that situation.  No other event navigates. *)
Theorem address_changes :
  (forall (w : World) (e : Event),
      let w' := step w e in
      history w' = history w
      \/ exists d,
          document (loader w') = Some d
          /\ let downgraded :=
               can_update (policies_abilities (stores w') (id d)) = false
               /\ match_path (props (loader w')) = matchDocumentEdit in
             (downgraded /\ history w' = history w ++ [Push (url d)])
             \/ (~ downgraded
                 /\ history w' = history w
                      ++ [Replace (updateDocumentUrl
                                     (match_url (props (loader w'))) d)]))
  /\ (forall (w : World) (k : nat) (sh rev : option string) (slug : string)
             (response : Response),
        lookup_task k (pending w) = Some (FetchingDocument sh slug rev) ->
        wantsRevision rev = false ->
        can_update (policies_abilities (stores w)
                      (id (response_document response))) = false ->
        match_path (props (loader w)) = matchDocumentEdit ->
        history (step w (DocumentSettled k (inr response)))
        = history w ++ [Push (url (response_document response))]).
Proof.
  assert (Hfin : forall k sh rev wi d,
             document (loader wi) = Some d ->
             let w' := loadDocument_finish k sh rev wi in
             history w' = history wi
             \/ exists d,
                 document (loader w') = Some d
                 /\ let downgraded :=
                      can_update (policies_abilities (stores w') (id d)) = false
                      /\ match_path (props (loader w')) = matchDocumentEdit in
                    (downgraded /\ history w' = history wi ++ [Push (url d)])
                    \/ (~ downgraded
                        /\ history w' = history wi
                             ++ [Replace (updateDocumentUrl
                                            (match_url (props (loader w'))) d)])).
  { intros k sh rev wi d Hd w'. subst w'.
    rewrite finish_loader, finish_stores.
    destruct (finish_classified k sh rev wi d Hd) as [[Hdown Hh]|[Hn [Hh|Hh]]].
    - right. exists d. split; [exact Hd|]. left. split; assumption.
    - left. exact Hh.
    - right. exists d. split; [exact Hd|]. right. split; assumption. }
  split.
  - intros w e w'. subst w'.
    destruct e as [| p | | s | k r | k r | k r].
    + left. unfold step, componentDidMount.
      rewrite loadDocument_call_history. reflexivity.
    + left. unfold step. rewrite componentDidUpdate_history. reflexivity.
    + left. reflexivity.
    + left. reflexivity.
    + simpl. destruct (lookup_task k (pending w)) as [[sh slug rev|arg aw|did]|];
        try (left; reflexivity).
      unfold documentFetched. destruct r as [err|response]; [left; reflexivity|].
      destruct (wantsRevision rev); [left; reflexivity|].
      match goal with
      | |- context [loadDocument_finish k sh rev ?x] =>
          exact (Hfin k sh rev x (response_document response) eq_refl)
      end.
    + simpl. destruct (lookup_task k (pending w)) as [[sh slug rev|arg aw|did]|];
        try (left; reflexivity).
      unfold revisionFetched.
      destruct r as [err|rv], aw as [[sh rev]|]; try (left; reflexivity).
      destruct (document (loader w)) as [d|] eqn:Hd.
      * match goal with
        | |- context [loadDocument_finish k sh rev ?x] =>
            exact (Hfin k sh rev x d Hd)
        end.
      * left. unfold loadDocument_finish.
        change (document (loader (with_loader (set_revision (Some rv))
                                    (resume k w))))
          with (document (loader w)).
        rewrite Hd. reflexivity.
    + left. simpl.
      destruct (lookup_task k (pending w)) as [[sh slug rev|arg aw|did]|];
        try reflexivity.
      unfold shareFetched. destruct r as [err|u]; [|reflexivity].
      destruct (isNotFound err); reflexivity.
  - intros w k sh rev slug response Hk Hrev Hcan Hedit.
    rewrite (step_documentSettled _ _ _ _ _ _ Hk).
    unfold documentFetched. rewrite Hrev.
    match goal with
    | |- context [loadDocument_finish k sh rev ?x] => set (wi := x)
    end.
    destruct (finish_classified k sh rev wi (response_document response) eq_refl)
      as [[_ Hh]|[Hn _]]; [exact Hh|].
    exfalso. apply Hn. split; assumption.
Qed.

(** *** Failures *)

(** C9 (amended).  In [onSearchLink] a [NotFoundError] from the exact lookup
    is swallowed and the title search runs instead; any other failure of the
    lookup is the failure of [onSearchLink] itself.  The share-info fetch is
    not awaited: its [NotFoundError] is swallowed; any other failure is
    rethrown from the detached handler, where nothing observes it, so it
    neither sets the loader's [error] nor fails any call of the loader. *)
Theorem notFound_handling :
  (forall (documents : DocumentsStore) (term : string),
      isInternalUrl term = true ->
      documents_fetch documents (parseDocumentSlug term) = inl NotFoundError ->
      onSearchLink documents term = searchByTitle documents term)
  /\ (forall (documents : DocumentsStore) (term : string) (err : Error),
        isInternalUrl term = true ->
        documents_fetch documents (parseDocumentSlug term) = inl err ->
        err <> NotFoundError ->
        onSearchLink documents term = inl err)
  /\ (forall (w : World) (k : nat) (did : string),
        lookup_task k (pending w) = Some (FetchingShare did) ->
        step w (ShareSettled k (inl NotFoundError)) = resume k w)
  /\ (forall (w : World) (k : nat) (did : string) (err : Error),
        lookup_task k (pending w) = Some (FetchingShare did) ->
        err <> NotFoundError ->
        let w' := step w (ShareSettled k (inl err)) in
        loader w' = loader w
        /\ settled w' = settled w
        /\ unhandled w' = unhandled w ++ [err]).
Proof.
  split; [|split; [|split]].
  - intros documents term Hint Hfetch. unfold onSearchLink.
    rewrite Hint, Hfetch. reflexivity.
  - intros documents term err Hint Hfetch Hne. unfold onSearchLink.
    rewrite Hint, Hfetch. destruct err; try reflexivity. contradiction.
  - intros w k did Hk. simpl. rewrite Hk. reflexivity.
  - intros w k did err Hk Hne w'. subst w'. simpl. rewrite Hk.
    destruct err; try contradiction; repeat split.
Qed.

(** *** Search ranking *)

Section SortBy.
Context {A : Type} (key : A -> Z).

Lemma insertBy_Permutation (x : A) (l : list A) :
  Permutation (insertBy key x l) (x :: l).
Proof.
  induction l as [|y l IH]; simpl; [reflexivity|].
  destruct (key x <=? key y)%Z; [reflexivity|].
  rewrite IH. apply perm_swap.
Qed.

Lemma sortBy_Permutation (l : list A) : Permutation (sortBy key l) l.
Proof.
  induction l as [|x l IH]; simpl; [reflexivity|].
  rewrite insertBy_Permutation. constructor. exact IH.
Qed.

Lemma insertBy_Sorted (x : A) (l : list A) :
  Sorted (keyLe key) l -> Sorted (keyLe key) (insertBy key x l).
Proof.
  induction l as [|y l IH]; simpl; intros Hs.
  - repeat constructor.
  - destruct (key x <=? key y)%Z eqn:E.
    + constructor; [exact Hs|]. constructor. unfold keyLe. lia.
    + inversion Hs as [|? ? Hs' Hhd]; subst.
      constructor; [apply IH, Hs'|].
      destruct l as [|z l]; simpl.
      * constructor. unfold keyLe. lia.
      * destruct (key x <=? key z)%Z; constructor.
        -- unfold keyLe. lia.
        -- inversion Hhd; assumption.
Qed.

Lemma sortBy_Sorted (l : list A) : Sorted (keyLe key) (sortBy key l).
Proof.
  induction l as [|x l IH]; simpl; [constructor|].
  apply insertBy_Sorted, IH.
Qed.

(** Elements with the same key keep their relative order. *)
Lemma insertBy_stable (c : Z) (x : A) (l : list A) :
  List.filter (fun y => (key y =? c)%Z) (insertBy key x l)
  = List.filter (fun y => (key y =? c)%Z) (x :: l).
Proof.
  induction l as [|y l IH]; [reflexivity|].
  cbn [insertBy]. destruct (key x <=? key y)%Z eqn:E; [reflexivity|].
  cbn [List.filter] in *. rewrite IH.
  destruct (key x =? c)%Z eqn:Ex, (key y =? c)%Z eqn:Ey; try reflexivity.
  lia.
Qed.

Lemma sortBy_stable (c : Z) (l : list A) :
  List.filter (fun y => (key y =? c)%Z) (sortBy key l)
  = List.filter (fun y => (key y =? c)%Z) l.
Proof.
  induction l as [|x l IH]; [reflexivity|].
  cbn [sortBy foldr]. rewrite insertBy_stable.
  cbn [List.filter]. fold (sortBy key l). rewrite IH. reflexivity.
Qed.

End SortBy.

Section Rank.
Context {A : Type} (p : A -> bool).

Lemma insertBy_rank_front (x : A) (l : list A) :
  p x = true -> insertBy (rankOf p) x l = x :: l.
Proof.
  intros Hx. destruct l as [|y l]; [reflexivity|].
  cbn [insertBy]. unfold rankOf. rewrite Hx. destruct (p y); reflexivity.
Qed.

Lemma insertBy_rank_middle (x : A) (front back : list A) :
  p x = false ->
  Forall (fun y => p y = true) front ->
  Forall (fun y => p y = false) back ->
  insertBy (rankOf p) x (front ++ back) = front ++ x :: back.
Proof.
  intros Hx Hfront Hback.
  induction Hfront as [|y front Hy _ IH]; simpl.
  - destruct Hback as [|z back Hz _]; [reflexivity|].
    cbn [insertBy]. unfold rankOf. rewrite Hx, Hz. reflexivity.
  - unfold rankOf at 1 2. rewrite Hx, Hy. simpl. rewrite IH. reflexivity.
Qed.

(** Sorting by a two-valued rank splits the list into the elements that
    satisfy the test and those that do not, each in their original order. *)
Lemma sortBy_rank (l : list A) :
  sortBy (rankOf p) l
  = List.filter p l ++ List.filter (fun x => negb (p x)) l.
Proof.
  induction l as [|x l IH]; [reflexivity|].
  cbn [sortBy foldr]. fold (sortBy (rankOf p) l). rewrite IH.
  cbn [List.filter]. destruct (p x) eqn:Hx; cbn [negb].
  - apply insertBy_rank_front, Hx.
  - apply insertBy_rank_middle; [exact Hx| |].
    + apply List.Forall_forall. intros y Hy.
      apply List.filter_In in Hy. tauto.
    + apply List.Forall_forall. intros y Hy.
      apply List.filter_In in Hy. destruct Hy as [_ Hy].
      apply negb_true_iff in Hy. exact Hy.
Qed.

End Rank.

(** C8.  Whenever [onSearchLink] reaches the title search and the search
    succeeds, the list it resolves to is: the entries whose deburred,
    lower-cased title starts with the deburred, lower-cased term, in the order
    the documents store returned them, followed by all the other entries, in
    the order the store returned them. *)
Theorem search_ranking (documents : DocumentsStore) (term : string)
        (results : list Document) :
  documents_searchTitles documents term = inr results ->
  isInternalUrl term = false
  \/ documents_fetch documents (parseDocumentSlug term) = inl NotFoundError ->
  let entries := map toSearchResult results in
  onSearchLink documents term
  = inr (List.filter (titleStartsWith term) entries
         ++ List.filter (fun r => negb (titleStartsWith term r)) entries).
Proof.
  intros Hsearch Hreach entries.
  assert (Hgeneral : searchByTitle documents term
                     = inr (List.filter (titleStartsWith term) entries
                            ++ List.filter
                                 (fun r => negb (titleStartsWith term r)) entries)).
  { unfold searchByTitle. rewrite Hsearch. f_equal.
    apply (sortBy_rank (titleStartsWith term)). }
  unfold onSearchLink. destruct Hreach as [Hext|Hmiss].
  - rewrite Hext. exact Hgeneral.
  - destruct (isInternalUrl term); [|exact Hgeneral].
    rewrite Hmiss. exact Hgeneral.
Qed.

End Facts.

(** *** The properties on concrete runs *)

Import Examples.

(** C1 as stated fails.  [twoRequests] has issued the request for [doc-a]
    (call 0) and then the one for [doc-b] (call 1).  When the first fetch
    completes, alone or after the second, [document] and the active document
    are [doc-a], while the view's slug is [doc-b]. *)
Lemma stale_response_overwrites :
  pending twoRequests = [(0, FetchingDocument None "doc-a" None);
                         (1, FetchingDocument None "doc-b" None)]
  /\ documentSlug (params (props (loader twoRequests))) = "doc-b"
  /\ document (loader (run twoRequests [DocumentSettled 0 (inr respA)]))
     = Some docA
  /\ activeDocument (run twoRequests [DocumentSettled 0 (inr respA)])
     = Some docA
  /\ document (loader (run twoRequests [DocumentSettled 1 (inr respB)]))
     = Some docB
  /\ document (loader (run twoRequests [DocumentSettled 1 (inr respB);
                                        DocumentSettled 0 (inr respA)]))
     = Some docA
  /\ activeDocument (run twoRequests [DocumentSettled 1 (inr respB);
                                      DocumentSettled 0 (inr respA)])
     = Some docA.
Proof. vm_compute. repeat split. Qed.

Lemma last_completion_wins_witness :
  document (loader (run twoRequests [DocumentSettled 1 (inr respB);
                                     DocumentSettled 0 (inr respA)]))
  = Some docA
  /\ document (loader (run twoRequests [DocumentSettled 0 (inr respA);
                                        DocumentSettled 1 (inr respB)]))
     = Some docB.
Proof.
  split.
  - apply (last_completion_wins twoRequests 0 1 None None None None
             "doc-a" "doc-b" respA respB); [discriminate|reflexivity..].
  - apply (last_completion_wins twoRequests 1 0 None None None None
             "doc-b" "doc-a" respB respA); [discriminate|reflexivity..].
Defined.

(** C5 as stated fails.  The view is unmounted while call 0 is in flight;
    the completion of the fetch then writes [document], the active document
    and the shared-tree cache, or [error] when the fetch fails. *)
Lemma unmounted_fetch_writes :
  pending (run (oneRequest fullAccess) [Unmount])
  = [(0, FetchingDocument None "doc-a" None)]
  /\ mounted (run (oneRequest fullAccess) [Unmount]) = false
  /\ document (loader (run (oneRequest fullAccess) [Unmount])) = None
  /\ activeDocument (run (oneRequest fullAccess) [Unmount]) = None
  /\ sharedTreeCache (run (oneRequest fullAccess) [Unmount]) !! "id-a" = None
  /\ document (loader (run (oneRequest fullAccess)
                           [Unmount; DocumentSettled 0 (inr respA)]))
     = Some docA
  /\ activeDocument (run (oneRequest fullAccess)
                         [Unmount; DocumentSettled 0 (inr respA)])
     = Some docA
  /\ sharedTreeCache (run (oneRequest fullAccess)
                          [Unmount; DocumentSettled 0 (inr respA)]) !! "id-a"
     = Some None
  /\ error (loader (run (oneRequest fullAccess) [Unmount])) = None
  /\ error (loader (run (oneRequest fullAccess)
                        [Unmount; DocumentSettled 0 (inl OfflineError)]))
     = Some OfflineError.
Proof. vm_compute. repeat split. Qed.

Lemma completion_after_unmount_witness :
  mounted (run (oneRequest fullAccess) [Unmount; DocumentSettled 0 (inr respA)])
  = false
  /\ document (loader (run (oneRequest fullAccess)
                           [Unmount; DocumentSettled 0 (inr respA)]))
     = Some docA.
Proof.
  destruct (completion_after_unmount (oneRequest fullAccess) 0 None None "doc-a"
              (inr respA) eq_refl) as (_ & Hflag & Hdoc & _).
  split; [exact Hflag|exact Hdoc].
Defined.

(** C3 as stated fails.  In both runs the request has no share context, the
    address does not end in [move] and the canonical address differs from the
    current one.  In the first the view is the edit view and the user may not
    update the document: the loader pushes the document's url and makes no
    replacement.  In the second the revision id is the sentinel ["latest"],
    which pins no specific revision: the loader makes no replacement. *)
Lemma redirect_counterexample :
  (pending (staleSlugEdit readOnly) = [(0, FetchingDocument None "old-a" None)]
   /\ pathname (props (loader (staleSlugEdit readOnly))) = "/doc/old-a/edit"
   /\ updateDocumentUrl (match_url (props (loader (staleSlugEdit readOnly)))) docA
      = "/doc/doc-a/edit"
   /\ history (step (staleSlugEdit readOnly) (DocumentSettled 0 (inr respA)))
      = [Push "/doc/doc-a"]
   /\ replacements
        (history (step (staleSlugEdit readOnly) (DocumentSettled 0 (inr respA))))
      = [])
  /\ (pending staleSlugLatest
      = [(0, FetchingDocument None "old-a" (Some "latest"))]
      /\ pathname (props (loader staleSlugLatest)) = "/doc/old-a/history/latest"
      /\ updateDocumentUrl (match_url (props (loader staleSlugLatest))) docA
         = "/doc/doc-a/history/latest"
      /\ revision (loader (step staleSlugLatest (DocumentSettled 0 (inr respA))))
         = None
      /\ replacements
           (history (step staleSlugLatest (DocumentSettled 0 (inr respA))))
         = []).
Proof. vm_compute. repeat split. Qed.

Lemma canonical_redirect_witness :
  replacements
    (history (step (staleSlugRequest fullAccess) (DocumentSettled 0 (inr respA))))
  = ["/doc/doc-a"]
  /\ replacements
       (history (run pinnedRequest [DocumentSettled 0 (inr respA);
                                    RevisionSettled 0 (inr rev1)]))
     = [].
Proof.
  split.
  - rewrite (proj1 (canonical_redirect (staleSlugRequest fullAccess) 0 None None
                      "old-a" respA eq_refl)); [reflexivity|].
    repeat split; try reflexivity.
    + intros [Hcan _]. discriminate Hcan.
    + intros Heq. vm_compute in Heq. discriminate Heq.
  - change (run pinnedRequest [DocumentSettled 0 (inr respA);
                               RevisionSettled 0 (inr rev1)])
      with (step (step pinnedRequest (DocumentSettled 0 (inr respA)))
                 (RevisionSettled 0 (inr rev1))).
    rewrite (proj2 (proj2
      (canonical_redirect pinnedRequest 0 None (Some "rev-1") "old-a" respA
         eq_refl))
      (step pinnedRequest (DocumentSettled 0 (inr respA))) (Some "rev-1")
      (inr rev1) eq_refl eq_refl).
    reflexivity.
Defined.

(** C4 as stated fails.  The edit view of [doc-a] for a user who may not
    update it: the only navigation call is a push. *)
Lemma downgrade_pushes :
  pending (editRequest readOnly) = [(0, FetchingDocument None "doc-a" None)]
  /\ history (editRequest readOnly) = []
  /\ history (step (editRequest readOnly) (DocumentSettled 0 (inr respA)))
     = [Push "/doc/doc-a"]
  /\ pushes (history (step (editRequest readOnly) (DocumentSettled 0 (inr respA))))
     = ["/doc/doc-a"].
Proof. vm_compute. repeat split. Qed.

Lemma address_changes_witness :
  history (step (staleSlugEdit readOnly) (DocumentSettled 0 (inr respA)))
  = [Push "/doc/doc-a"].
Proof.
  rewrite (proj2 (@address_changes asciiHelpers) (staleSlugEdit readOnly) 0
             None None "old-a" respA); reflexivity.
Defined.

(** C9 as stated fails for the share-info fetch.  Call 0 of [loadDocument]
    has ended normally and started the share fetch (call 1).  The share fetch
    then fails with [OfflineError]: the loader's [error] stays unset and no
    call of the loader has failed; the failure is an unobserved rejection. *)
Lemma share_failure_unobserved :
  pending (run (oneRequest fullAccess) [DocumentSettled 0 (inr respA)])
  = [(1, FetchingShare "id-a")]
  /\ settled (run (oneRequest fullAccess) [DocumentSettled 0 (inr respA)])
     = [(0, None)]
  /\ error (loader (run (oneRequest fullAccess)
                        [DocumentSettled 0 (inr respA);
                         ShareSettled 1 (inl OfflineError)])) = None
  /\ settled (run (oneRequest fullAccess)
                  [DocumentSettled 0 (inr respA);
                   ShareSettled 1 (inl OfflineError)]) = [(0, None)]
  /\ unhandled (run (oneRequest fullAccess)
                    [DocumentSettled 0 (inr respA);
                     ShareSettled 1 (inl OfflineError)]) = [OfflineError].
Proof. vm_compute. repeat split. Qed.

Lemma notFound_handling_witness :
  onSearchLink (searchStore (inl NotFoundError)) "/doc/plan"
  = searchByTitle (searchStore (inl NotFoundError)) "/doc/plan"
  /\ onSearchLink (searchStore (inl OfflineError)) "/doc/plan" = inl OfflineError
  /\ step (step (oneRequest fullAccess) (DocumentSettled 0 (inr respA)))
          (ShareSettled 1 (inl NotFoundError))
     = resume 1 (step (oneRequest fullAccess) (DocumentSettled 0 (inr respA)))
  /\ unhandled (step (step (oneRequest fullAccess) (DocumentSettled 0 (inr respA)))
                     (ShareSettled 1 (inl OfflineError)))
     = [OfflineError].
Proof.
  destruct (@notFound_handling asciiHelpers) as (Hmiss & Hfail & Hshare & Hother).
  split; [|split; [|split]].
  - apply Hmiss; reflexivity.
  - apply Hfail; [reflexivity|reflexivity|discriminate].
  - apply (Hshare _ 1 "id-a"). reflexivity.
  - destruct (Hother (step (oneRequest fullAccess) (DocumentSettled 0 (inr respA)))
                1 "id-a" OfflineError) as (_ & _ & Hu);
      [reflexivity|discriminate|].
    rewrite Hu. reflexivity.
Defined.

Lemma search_ranking_witness :
  onSearchLink (searchStore (inl NotFoundError)) "pro"
  = inr [toSearchResult (titled "plan" "Project Plan");
         toSearchResult (titled "notes" "proactive notes");
         toSearchResult (titled "proposal" "Approved Proposal")].
Proof.
  rewrite (search_ranking (searchStore (inl NotFoundError)) "pro"
             [titled "plan" "Project Plan";
              titled "proposal" "Approved Proposal";
              titled "notes" "proactive notes"]);
    [reflexivity|reflexivity|left; reflexivity].
Defined.

(** C10 as stated fails.  The first request is pinned to [rev-1] of
    [doc-a]; the later request, for [doc-b], carries no revision id.  When
    [doc-b] has arrived, [revision] is none.  Then the revision fetch of the
    first request completes: [rev-1], a revision of [doc-a], is exposed next
    to [doc-b]. *)
Lemma late_revision_exposed :
  revisionId (params (propsFor "doc-b" None)) = None
  /\ document (loader (run revisionViewOfDocA plainDocBResolved)) = Some docB
  /\ revision (loader (run revisionViewOfDocA plainDocBResolved)) = None
  /\ document (loader (run revisionViewOfDocA
                          (plainDocBResolved ++ [RevisionSettled 0 (inr rev1)])))
     = Some docB
  /\ revision (loader (run revisionViewOfDocA
                          (plainDocBResolved ++ [RevisionSettled 0 (inr rev1)])))
     = Some rev1
  /\ revision_documentId rev1 = id docA.
Proof. vm_compute. repeat split. Qed.

Lemma revision_reset_witness :
  revision (loader afterRevisionView) = Some rev1
  /\ revision (loader (step afterRevisionView (DocumentSettled 2 (inr respA))))
     = None.
Proof.
  split; [reflexivity|].
  apply (revision_reset afterRevisionView 2 None None "doc-a" respA);
    [reflexivity|left; reflexivity].
Defined.

End DataLoaderSpec.

(** * Further properties of CollectionLink *)

Module CollectionLinkExtra.

Import CollectionLink CollectionLinkView.

Section Facts.
Context `{OrderKeys}.

(** X1.  Running the expansion effect a second time with the same inputs
    changes nothing, and the effect never touches the permission dialog or
    the pending drop item. *)
Theorem expandEffect_idempotent (props : Props) (stores : Stores) (st : State) :
  expandEffect props stores (expandEffect props stores st)
  = expandEffect props stores st
  /\ permissionOpen (expandEffect props stores st) = permissionOpen st
  /\ itemRef (expandEffect props stores st) = itemRef st.
Proof.
  unfold expandEffect.
  destruct (bool_decide (search stores = "?starred"));
    destruct (isDraggingAnyCollection props); repeat split.
Qed.

(** X2.  Outside the starred view, once the effect has run during a
    collection drag the link renders neither its document rows nor the
    top-edge reorder cursor, and it renders the between-collections cursor;
    and whatever the state, the top-edge cursor is rendered only for an
    expanded collection sorted by index. *)
Theorem drag_hides_documents (props : Props) (stores : Stores)
        (menuOpen : bool) (st : State) :
  (search stores <> "?starred" ->
   isDraggingAnyCollection props = true ->
   let v := render props menuOpen (expandEffect props stores st) in
   showsDocuments v = false
   /\ showsReorderCursor v = false
   /\ showsCollectionCursor v = true
   /\ showActions v = menuOpen)
  /\ (showsReorderCursor (render props menuOpen st) = true ->
      showsDocuments (render props menuOpen st) = true
      /\ sort_field (collection props) = "index").
Proof.
  split.
  - intros Hs Hd v. subst v. unfold expandEffect, render.
    rewrite bool_decide_eq_false_2 by assumption. rewrite Hd. simpl.
    rewrite orb_false_r. repeat split.
  - unfold render, manualSort. simpl. intros Hshow.
    apply andb_true_iff in Hshow. destruct Hshow as [He Hm].
    apply bool_decide_eq_true in Hm. split; assumption.
Qed.

(** X3.  The body zone is gated by the [update] capability on the target
    collection: without it no document drop has any effect.  For a document
    that already belongs to the collection the body zone makes no store call,
    while the top-edge zone moves the document to position 0 of the same
    collection. *)
Theorem body_and_top_edge (props : Props) (stores : Stores) (st : State) :
  (can_update (abilities stores (id (collection props))) = false ->
   forall (didDrop : bool) (item : DocumentItem),
     documentDropGesture props stores didDrop item st = (st, []))
  /\ (forall (didDrop : bool) (item : DocumentItem),
        item_collectionId item = id (collection props) ->
        documentDropGesture props stores didDrop item st = (st, [])
        /\ dropToReorder props item st
           = (st, [DocumentsMove (item_id item) (item_collectionId item)
                                 None (Some 0)])).
Proof.
  split.
  - intros Hno didDrop item. unfold documentDropGesture, drop_canDrop.
    rewrite Hno. reflexivity.
  - intros didDrop item Hsame. split.
    + unfold documentDropGesture, drop.
      destruct (drop_canDrop props stores item); [|reflexivity].
      destruct didDrop; [reflexivity|].
      rewrite bool_decide_eq_true_2 by congruence. reflexivity.
    + unfold dropToReorder. rewrite Hsame. reflexivity.
Qed.

(** X4.  A document gesture on either zone makes at most one store call,
    which can only move the dragged document into this collection; it never
    changes the expanded flag; and the body zone either leaves the state as
    it is or makes no store call and opens the dialog with the dragged item
    as the pending one, replacing any item that was pending. *)
Theorem document_gestures_frame (props : Props) (stores : Stores)
        (didDrop : bool) (item : DocumentItem) (st : State) :
  let body := documentDropGesture props stores didDrop item st in
  let top := dropToReorder props item st in
  length (snd body) <= 1
  /\ length (snd top) <= 1
  /\ movesOnly props item (snd body)
  /\ movesOnly props item (snd top)
  /\ expanded (fst body) = expanded st
  /\ fst top = st
  /\ (fst body = st
      \/ snd body = []
         /\ permissionOpen (fst body) = true
         /\ itemRef (fst body) = Some item).
Proof.
  intros body top. subst body top.
  unfold documentDropGesture, drop, dropToReorder, movesOnly.
  assert (Hone : forall position,
             Forall (fun call =>
                       exists position,
                         call = DocumentsMove (item_id item)
                                  (id (collection props)) None position)
                    [DocumentsMove (item_id item) (id (collection props))
                                   None position]).
  { intros position. constructor; [eexists; reflexivity|constructor]. }
  destruct (drop_canDrop props stores item); simpl;
    [|repeat split; try lia; try apply Forall_nil; auto].
  destruct didDrop; simpl;
    [repeat split; try lia; try apply Forall_nil; auto|].
  destruct (bool_decide (id (collection props) = item_collectionId item)); simpl;
    [repeat split; try lia; try apply Forall_nil; auto|].
  destruct (needsPermissionDialog props
              (collections_get stores (item_collectionId item))); simpl.
  - repeat split; try lia; try apply Forall_nil; auto.
  - repeat split; try lia; auto.
Qed.

End Facts.

Import SidebarExamples SidebarCases.

Lemma drag_hides_documents_witness :
  showsDocuments (render (linkOf design None true) false
                    (expandEffect (linkOf design None true)
                       (storesAt (Some "col-des") "") unfolded)) = false
  /\ (showsDocuments (render (linkOf design None false) false unfolded) = true
      /\ sort_field design = "index").
Proof.
  split.
  - apply (drag_hides_documents (linkOf design None true)
             (storesAt (Some "col-des") "") false unfolded);
      [discriminate|reflexivity].
  - apply (drag_hides_documents (linkOf design None false)
             (storesAt None "") false unfolded). reflexivity.
Defined.

Lemma body_and_top_edge_witness :
  documentDropGesture (linkOf design None false) lockedStores false
                      docInEngineering collapsed = (collapsed, [])
  /\ dropToReorder (linkOf engineering None false) docInEngineering unfolded
     = (unfolded, [DocumentsMove "doc-1" "col-eng" None (Some 0)]).
Proof.
  split.
  - apply (proj1 (body_and_top_edge (linkOf design None false) lockedStores
                    collapsed)).
    reflexivity.
  - apply (proj2 (body_and_top_edge (linkOf engineering None false)
                    (storesAt None "") unfolded) false docInEngineering).
    reflexivity.
Defined.

End CollectionLinkExtra.

(** * Further properties of DataLoader *)

Module DataLoaderExtra.

Import DataLoader DataLoaderView DataLoaderSpec.

Section Facts.
Context `{Helpers}.

(** *** Identifiers of suspended calls *)

Lemma remove_task_ids (k : nat) (p : list (nat * Task)) :
  sublist (map fst (remove_task k p)) (map fst p).
Proof.
  induction p as [|[k' t] p IH]; simpl; [constructor|].
  destruct (bool_decide (k' = k)); simpl.
  - apply sublist_cons. reflexivity.
  - apply sublist_skip. exact IH.
Qed.

Lemma lookup_task_None (k : nat) (p : list (nat * Task)) :
  k ∉ map fst p -> lookup_task k p = None.
Proof.
  induction p as [|[k' t] p IH]; simpl; [reflexivity|].
  intros Hnot. apply not_elem_of_cons in Hnot. destruct Hnot as [Hne Hnot].
  rewrite bool_decide_eq_false_2 by congruence. apply IH, Hnot.
Qed.

Lemma lookup_task_elem (k : nat) (p : list (nat * Task)) (t : Task) :
  lookup_task k p = Some t -> k ∈ map fst p.
Proof.
  induction p as [|[k' t'] p IH]; simpl; [discriminate|].
  destruct (bool_decide (k' = k)) eqn:E.
  - apply bool_decide_eq_true in E. subst. intros _. apply list_elem_of_here.
  - intros Ht. apply list_elem_of_further, IH, Ht.
Qed.

Lemma remove_task_gone (k : nat) (p : list (nat * Task)) :
  NoDup (map fst p) -> k ∉ map fst (remove_task k p).
Proof.
  induction p as [|[k' t] p IH]; simpl; intros Hnd.
  - apply not_elem_of_nil.
  - apply NoDup_cons in Hnd. destruct Hnd as [Hfresh Hnd].
    destruct (bool_decide (k' = k)) eqn:E; simpl.
    + apply bool_decide_eq_true in E. subst. exact Hfresh.
    + apply bool_decide_eq_false in E. apply not_elem_of_cons.
      split; [congruence|apply IH, Hnd].
Qed.

Lemma lookup_task_app_r (k : nat) (p q : list (nat * Task)) :
  k ∉ map fst p -> lookup_task k (p ++ q) = lookup_task k q.
Proof.
  induction p as [|[k' t] p IH]; simpl; [reflexivity|].
  intros Hnot. apply not_elem_of_cons in Hnot. destruct Hnot as [Hne Hnot].
  rewrite bool_decide_eq_false_2 by congruence. apply IH, Hnot.
Qed.

Lemma lookup_task_here (k : nat) (t : Task) (q : list (nat * Task)) :
  lookup_task k ((k, t) :: q) = Some t.
Proof. simpl. rewrite bool_decide_eq_true_2; reflexivity. Qed.

Lemma wellFormed_fresh (w : World) : wellFormed w -> nextId w ∉ map fst (pending w).
Proof.
  intros [_ Hlt] Hin. rewrite Forall_forall in Hlt.
  specialize (Hlt _ Hin). lia.
Qed.

Lemma wellFormed_same (w w' : World) :
  pending w' = pending w -> nextId w' = nextId w ->
  wellFormed w -> wellFormed w'.
Proof. unfold wellFormed. intros -> ->. trivial. Qed.

Lemma wellFormed_spawn (t : Task) (w : World) :
  wellFormed w -> wellFormed (spawn t w).
Proof.
  intros Hwf. pose proof (wellFormed_fresh w Hwf) as Hfresh.
  destruct Hwf as [Hnd Hlt]. unfold wellFormed, spawn. simpl.
  rewrite map_app. simpl. split.
  - apply NoDup_app. split; [exact Hnd|]. split.
    + intros k Hk Hk'. apply list_elem_of_singleton in Hk'. subst. contradiction.
    + apply NoDup_singleton.
  - apply Forall_app. split.
    + eapply Forall_impl; [exact Hlt|]. simpl. intros; lia.
    + constructor; [lia|constructor].
Qed.

Lemma wellFormed_resume (k : nat) (w : World) :
  wellFormed w -> wellFormed (resume k w).
Proof.
  intros [Hnd Hlt]. unfold wellFormed, resume. simpl. split.
  - eapply sublist_NoDup; [exact Hnd|apply remove_task_ids].
  - rewrite Forall_forall in *. intros k' Hk'. apply Hlt.
    eapply elem_of_sublist; [exact Hk'|apply remove_task_ids].
Qed.

(** The running call [k] suspends again under its own identifier. *)
Lemma wellFormed_suspend (k : nat) (t t0 : Task) (w : World) :
  wellFormed w -> lookup_task k (pending w) = Some t0 ->
  wellFormed (suspend k t (resume k w)).
Proof.
  intros Hwf Hk. pose proof (wellFormed_resume k w Hwf) as [Hnd' Hlt'].
  destruct Hwf as [Hnd Hlt]. unfold wellFormed, suspend. simpl in *.
  rewrite map_app. simpl. split.
  - apply NoDup_app. split; [exact Hnd'|]. split.
    + intros k' Hk1 Hk2. apply list_elem_of_singleton in Hk2. subst.
      revert Hk1. apply remove_task_gone, Hnd.
    + apply NoDup_singleton.
  - apply Forall_app. split; [exact Hlt'|].
    constructor; [|constructor].
    rewrite Forall_forall in Hlt. apply Hlt.
    eapply lookup_task_elem, Hk.
Qed.

Lemma wellFormed_finish (k : nat) (sh rev : option string) (w : World) :
  wellFormed w -> wellFormed (loadDocument_finish k sh rev w).
Proof.
  intros Hwf.
  assert (Hshape :
    (pending (loadDocument_finish k sh rev w) = pending w
     /\ nextId (loadDocument_finish k sh rev w) = nextId w)
    \/ exists t,
        pending (loadDocument_finish k sh rev w) = pending (spawn t w)
        /\ nextId (loadDocument_finish k sh rev w) = nextId (spawn t w)).
  { unfold loadDocument_finish.
    repeat case_match;
      first [ left; split; reflexivity
            | right; eexists; split; reflexivity ]. }
  destruct Hshape as [[Hp Hn]|(t & Hp & Hn)].
  - exact (wellFormed_same _ _ Hp Hn Hwf).
  - exact (wellFormed_same _ _ Hp Hn (wellFormed_spawn t w Hwf)).
Qed.

Lemma wellFormed_loadDocument_call (w : World) :
  wellFormed w -> wellFormed (loadDocument_call w).
Proof.
  intros Hwf. unfold loadDocument_call.
  destruct (document (loader w)) as [d|]; [|apply wellFormed_spawn, Hwf].
  apply wellFormed_spawn. exact (wellFormed_same w _ eq_refl eq_refl Hwf).
Qed.

Lemma wellFormed_componentDidUpdate (prev : Props) (w : World) :
  wellFormed w -> wellFormed (componentDidUpdate prev w).
Proof.
  intros Hwf. unfold componentDidUpdate.
  repeat case_match; unfold loadRevision_call;
    repeat first [ apply wellFormed_loadDocument_call
                 | apply wellFormed_spawn ]; exact Hwf.
Qed.

Lemma step_wellFormed (w : World) (e : Event) :
  wellFormed w -> wellFormed (step w e).
Proof.
  intros Hwf. destruct e as [| p | | s | k r | k r | k r]; unfold step.
  - unfold componentDidMount. apply wellFormed_loadDocument_call.
    exact (wellFormed_same w _ eq_refl eq_refl Hwf).
  - apply wellFormed_componentDidUpdate.
    exact (wellFormed_same w _ eq_refl eq_refl Hwf).
  - exact (wellFormed_same w _ eq_refl eq_refl Hwf).
  - exact (wellFormed_same w _ eq_refl eq_refl Hwf).
  - destruct (lookup_task k (pending w)) as [[sh slug rev|arg aw|did]|] eqn:Hk;
      try exact Hwf.
    unfold documentFetched. destruct r as [err|response].
    + exact (wellFormed_same (resume k w) _ eq_refl eq_refl
               (wellFormed_resume k w Hwf)).
    + destruct (wantsRevision rev).
      * unfold loadRevision_call.
        match goal with
        | |- wellFormed (suspend k ?t _) =>
            exact (wellFormed_same (suspend k t (resume k w)) _ eq_refl eq_refl
                     (wellFormed_suspend k t _ w Hwf Hk))
        end.
      * apply wellFormed_finish.
        exact (wellFormed_same (resume k w) _ eq_refl eq_refl
                 (wellFormed_resume k w Hwf)).
  - destruct (lookup_task k (pending w)) as [[sh slug rev|arg aw|did]|] eqn:Hk;
      try exact Hwf.
    unfold revisionFetched.
    destruct r as [err|rv], aw as [[sh rev]|];
      try exact (wellFormed_same (resume k w) _ eq_refl eq_refl
                   (wellFormed_resume k w Hwf)).
    apply wellFormed_finish.
    exact (wellFormed_same (resume k w) _ eq_refl eq_refl
             (wellFormed_resume k w Hwf)).
  - destruct (lookup_task k (pending w)) as [[sh slug rev|arg aw|did]|] eqn:Hk;
      try exact Hwf.
    unfold shareFetched. destruct r as [err|u]; [destruct (isNotFound err)|];
      exact (wellFormed_same (resume k w) _ eq_refl eq_refl
               (wellFormed_resume k w Hwf)).
Qed.

Lemma run_wellFormed (es : list Event) (w : World) :
  wellFormed w -> wellFormed (run w es).
Proof.
  revert w. induction es as [|e es IH]; intros w Hwf; [exact Hwf|].
  change (run w (e :: es)) with (run (step w e) es).
  apply IH, step_wellFormed, Hwf.
Qed.

Lemma initialWorld_wellFormed (p : Props) (s : Stores) :
  wellFormed (initialWorld p s).
Proof. split; simpl; constructor. Qed.

(** *** Failures of the fetches *)

(** [document.isArchived], a getter of the document model. *)
Variable isArchived : Document -> bool.

(** X5.  When the document fetch of [loadDocument] fails, the failure is
    stored in [error] and nothing else is written: the held document,
    revision and shared tree, the cache, the active document and the address
    stay as they were, no further fetch is started and the call ends
    normally.  The view then shows the offline page for an [OfflineError]
    and the not-found page for every other failure, even when a document is
    held. *)
Theorem fetch_failure (w : World) (k : nat) (sh rev : option string)
        (slug : string) (err : Error) (team : option Team) :
  lookup_task k (pending w) = Some (FetchingDocument sh slug rev) ->
  let w' := step w (DocumentSettled k (inl err)) in
  loader w' = set_error (Some err) (loader w)
  /\ sharedTreeCache w' = sharedTreeCache w
  /\ activeDocument w' = activeDocument w
  /\ history w' = history w
  /\ pending w' = remove_task k (pending w)
  /\ settled w' = settled w ++ [(k, None)]
  /\ unhandled w' = unhandled w
  /\ render isArchived team w'
     = if isOffline err then ErrorOffline else Error404.
Proof.
  intros Hk w'. subst w'. rewrite (step_documentSettled _ _ _ _ _ _ Hk).
  repeat split.
Qed.

Lemma documentFetched_suspends (w : World) (k : nat) (sh rev : option string)
      (slug : string) (response : Response) :
  wellFormed w ->
  lookup_task k (pending w) = Some (FetchingDocument sh slug rev) ->
  wantsRevision rev = true ->
  lookup_task k (pending (step w (DocumentSettled k (inr response))))
  = Some (FetchingRevision (revisionId (params (props (loader w))))
                           (Some (sh, rev))).
Proof.
  intros [Hnd _] Hk Hrev. rewrite (step_documentSettled _ _ _ _ _ _ Hk).
  unfold documentFetched. rewrite Hrev. unfold loadRevision_call. simpl.
  rewrite lookup_task_app_r by (apply remove_task_gone, Hnd).
  apply lookup_task_here.
Qed.

(** X6.  When a request pinned to a revision has its document fetched and
    the revision fetch then fails, the failure is stored in [error], but the
    writes made when the document arrived stay: [document], [sharedTree] and
    the cache entry hold the fetched document.  The tail of [loadDocument]
    does not run: the call makes no address change, and [revision] is as it
    was.  The view shows an error page although the document is loaded. *)
Theorem revision_failure_partial (w : World) (k : nat) (sh rev : option string)
        (slug : string) (response : Response) (err : Error)
        (team : option Team) :
  wellFormed w ->
  lookup_task k (pending w) = Some (FetchingDocument sh slug rev) ->
  wantsRevision rev = true ->
  let w' := run w [DocumentSettled k (inr response);
                   RevisionSettled k (inl err)] in
  error (loader w') = Some err
  /\ document (loader w') = Some (response_document response)
  /\ sharedTree (loader w') = response_sharedTree response
  /\ sharedTreeCache w' !! id (response_document response)
     = Some (response_sharedTree response)
  /\ revision (loader w') = revision (loader w)
  /\ history w' = history w
  /\ render isArchived team w'
     = if isOffline err then ErrorOffline else Error404.
Proof.
  intros Hwf Hk Hrev w'. subst w'.
  change (run w [DocumentSettled k (inr response); RevisionSettled k (inl err)])
    with (step (step w (DocumentSettled k (inr response)))
               (RevisionSettled k (inl err))).
  pose proof (documentFetched_suspends w k sh rev slug response Hwf Hk Hrev)
    as Hk1.
  set (w1 := step w (DocumentSettled k (inr response))) in *.
  assert (Hw1 : w1 = loadRevision_call (Some k) (Some (sh, rev))
                       (cache_put (id (response_document response))
                          (response_sharedTree response)
                          (with_loader
                             (set_document (Some (response_document response)))
                             (with_loader
                                (set_sharedTree (response_sharedTree response))
                                (resume k w))))).
  { subst w1. rewrite (step_documentSettled _ _ _ _ _ _ Hk).
    unfold documentFetched. rewrite Hrev. reflexivity. }
  unfold step. rewrite Hk1. unfold revisionFetched.
  rewrite Hw1. unfold loadRevision_call, render. simpl.
  repeat split.
  apply lookup_insert_eq.
Qed.

Lemma step_error_sticky (w : World) (e : Event) :
  is_Some (error (loader w)) -> is_Some (error (loader (step w e))).
Proof.
  intros Herr. destruct e as [| p | | s | k r | k r | k r]; unfold step.
  - unfold componentDidMount. rewrite loadDocument_call_loader. exact Herr.
  - rewrite componentDidUpdate_loader. exact Herr.
  - exact Herr.
  - exact Herr.
  - destruct (lookup_task k (pending w)) as [[sh slug rev|arg aw|did]|];
      try exact Herr.
    unfold documentFetched. destruct r as [err|response]; [eexists; reflexivity|].
    destruct (wantsRevision rev).
    + rewrite loadRevision_call_loader. exact Herr.
    + rewrite finish_loader. exact Herr.
  - destruct (lookup_task k (pending w)) as [[sh slug rev|arg aw|did]|];
      try exact Herr.
    unfold revisionFetched.
    destruct r as [err|rv], aw as [[sh rev]|]; try exact Herr.
    + eexists; reflexivity.
    + rewrite finish_loader. exact Herr.
  - destruct (lookup_task k (pending w)) as [[sh slug rev|arg aw|did]|];
      try exact Herr.
    unfold shareFetched. destruct r as [err|u]; [destruct (isNotFound err)|];
      exact Herr.
Qed.

(** X7.  The errored state is terminal: no event of the loader clears
    [error], so once a failure is recorded the view shows an error page after
    every later run of events, whatever arrives and whatever is rendered. *)
Theorem errored_is_terminal (w : World) (es : list Event) (team : option Team) :
  is_Some (error (loader w)) ->
  is_Some (error (loader (run w es)))
  /\ (render isArchived team (run w es) = ErrorOffline
      \/ render isArchived team (run w es) = Error404).
Proof.
  intros Herr.
  assert (Hrun : is_Some (error (loader (run w es)))).
  { revert w Herr. induction es as [|e es IH]; intros w Herr; [exact Herr|].
    change (run w (e :: es)) with (run (step w e) es).
    apply IH, step_error_sticky, Herr. }
  split; [exact Hrun|]. unfold render. destruct Hrun as [err ->].
  destruct (isOffline err); [left|right]; reflexivity.
Qed.

(** *** Revision changes *)

Lemma spawn_lookup (t : Task) (w : World) :
  wellFormed w -> lookup_task (nextId w) (pending (spawn t w)) = Some t.
Proof.
  intros Hwf. unfold spawn. simpl.
  rewrite lookup_task_app_r by (apply wellFormed_fresh, Hwf).
  apply lookup_task_here.
Qed.

(** What a re-render does when the revision id has changed to a specific
    revision: after the optional reload, [loadRevision] is called and its
    promise dropped. *)
Lemma render_spawns_revision (w : World) (p : Props) :
  revisionId (params (props (loader w))) <> revisionId (params p) ->
  wantsRevision (revisionId (params p)) = true ->
  step w (Render p)
  = spawn (FetchingRevision (revisionId (params p)) None)
          (if reloads w then loadDocument_call (with_loader (set_props p) w)
           else with_loader (set_props p) w).
Proof.
  intros Hne Hrev. unfold step, componentDidUpdate, reloads.
  change (document (loader (with_loader (set_props p) w)))
    with (document (loader w)).
  change (error (loader (with_loader (set_props p) w)))
    with (error (loader w)).
  change (stores (with_loader (set_props p) w)) with (stores w).
  assert (Hgo : forall wA : World,
             props (loader wA) = p ->
             (if negb (Js.strict_eq (revisionId (params (props (loader w))))
                                    (revisionId (params (props (loader wA)))))
                 && wantsRevision (revisionId (params (props (loader wA))))
              then loadRevision_call None None wA else wA)
             = spawn (FetchingRevision (revisionId (params p)) None) wA).
  { intros wA HA. rewrite HA, Hrev. unfold Js.strict_eq.
    rewrite bool_decide_eq_false_2 by assumption.
    unfold loadRevision_call. rewrite HA. reflexivity. }
  destruct (document (loader w)) as [d|]; [|apply Hgo; reflexivity].
  destruct (negb (policies_get (stores w) (id d))
            && negb (bool_decide (is_Some (error (loader w))))
            && Js.truthy (auth_user_id (stores w)));
    apply Hgo; [rewrite loadDocument_call_loader|]; reflexivity.
Qed.

(** X8.  When a re-render changes the revision id to a specific revision,
    [componentDidUpdate] starts a revision fetch whose promise nobody holds.
    If that fetch fails, the failure is an unobserved rejection: [error]
    stays as it was and [revision] keeps the revision loaded before, so the
    view goes on showing the old revision under the new address.  If it
    succeeds, [revision] is the fetched one. *)
Theorem revision_change_outcome (w : World) (p : Props) (r : Error + Revision) :
  wellFormed w ->
  revisionId (params (props (loader w))) <> revisionId (params p) ->
  wantsRevision (revisionId (params p)) = true ->
  let k := if reloads w then S (nextId w) else nextId w in
  let w1 := step w (Render p) in
  let w' := step w1 (RevisionSettled k r) in
  lookup_task k (pending w1)
  = Some (FetchingRevision (revisionId (params p)) None)
  /\ error (loader w') = error (loader w)
  /\ document (loader w') = document (loader w)
  /\ history w' = history w
  /\ match r with
     | inl err => revision (loader w') = revision (loader w)
                  /\ unhandled w' = unhandled w ++ [err]
     | inr rv => revision (loader w') = Some rv
                 /\ unhandled w' = unhandled w
     end.
Proof.
  intros Hwf Hne Hrev k w1 w'.
  set (wA := if reloads w then loadDocument_call (with_loader (set_props p) w)
             else with_loader (set_props p) w).
  assert (Hw1 : w1 = spawn (FetchingRevision (revisionId (params p)) None) wA)
    by (apply render_spawns_revision; assumption).
  assert (HwfA : wellFormed wA).
  { subst wA. destruct (reloads w).
    - apply wellFormed_loadDocument_call.
      exact (wellFormed_same w _ eq_refl eq_refl Hwf).
    - exact (wellFormed_same w _ eq_refl eq_refl Hwf). }
  assert (HkA : nextId wA = k).
  { subst wA k. destruct (reloads w); [|reflexivity].
    unfold loadDocument_call.
    destruct (document (loader (with_loader (set_props p) w))); reflexivity. }
  assert (HlA : loader wA = set_props p (loader w)).
  { subst wA. destruct (reloads w); [|reflexivity].
    apply loadDocument_call_loader. }
  assert (HhA : history wA = history w /\ unhandled wA = unhandled w).
  { subst wA. destruct (reloads w); [|split; reflexivity].
    unfold loadDocument_call.
    destruct (document (loader (with_loader (set_props p) w))); split;
      reflexivity. }
  destruct HhA as [HhA HuA].
  assert (Hk1 : lookup_task k (pending w1)
                = Some (FetchingRevision (revisionId (params p)) None)).
  { rewrite Hw1, <- HkA. apply spawn_lookup, HwfA. }
  split; [exact Hk1|].
  subst w'. unfold step. rewrite Hk1. unfold revisionFetched.
  rewrite Hw1. destruct r as [err|rv]; simpl; rewrite HlA, HhA, HuA;
    repeat split.
Qed.

(** X9.  A pinned request fetches the revision named by the props of the
    moment the document arrives, not the revision id it captured on entry:
    if the view has been re-rendered with other props in between, the
    revision fetch awaited by the old call carries the new props' revision
    id, which may be absent. *)
Theorem loadRevision_reads_current_props (w : World) (k : nat)
        (sh rev : option string) (slug : string) (response : Response)
        (p : Props) :
  lookup_task k (pending w) = Some (FetchingDocument sh slug rev) ->
  wantsRevision rev = true ->
  let w' := run w [Render p; DocumentSettled k (inr response)] in
  (k, FetchingRevision (revisionId (params p)) (Some (sh, rev))) ∈ pending w'
  /\ document (loader w') = Some (response_document response)
  /\ revision (loader w') = revision (loader w).
Proof.
  intros Hk Hrev w'. subst w'.
  change (run w [Render p; DocumentSettled k (inr response)])
    with (step (step w (Render p)) (DocumentSettled k (inr response))).
  set (w1 := step w (Render p)).
  assert (Hl1 : loader w1 = set_props p (loader w))
    by (subst w1; unfold step; apply componentDidUpdate_loader).
  assert (Hk1 : lookup_task k (pending w1)
                = Some (FetchingDocument sh slug rev)).
  { subst w1. unfold step, componentDidUpdate.
    repeat case_match; unfold loadRevision_call, loadDocument_call, spawn;
      repeat case_match; simpl;
      repeat apply lookup_task_app; exact Hk. }
  rewrite (step_documentSettled _ _ _ _ _ _ Hk1).
  unfold documentFetched. rewrite Hrev. unfold loadRevision_call, suspend.
  simpl. rewrite Hl1. simpl. repeat split.
  apply elem_of_app. right. apply list_elem_of_here.
Qed.

(** *** The shared-tree cache *)

Lemma loadDocument_call_cache (w : World) :
  sharedTreeCache (loadDocument_call w) = sharedTreeCache w.
Proof. unfold loadDocument_call. destruct (document (loader w)); reflexivity. Qed.

Lemma componentDidUpdate_cache (prev : Props) (w : World) :
  sharedTreeCache (componentDidUpdate prev w) = sharedTreeCache w.
Proof.
  unfold componentDidUpdate, loadRevision_call.
  repeat first [ rewrite loadDocument_call_cache | case_match ]; try reflexivity.
  all: simpl; apply loadDocument_call_cache.
Qed.

Lemma step_cache (w : World) (e : Event) :
  sharedTreeCache (step w e) = sharedTreeCache w
  \/ exists (k : nat) (response : Response),
      e = DocumentSettled k (inr response)
      /\ sharedTreeCache (step w e)
         = <[id (response_document response) := response_sharedTree response]>
             (sharedTreeCache w).
Proof.
  destruct e as [| p | | s | k r | k r | k r]; unfold step.
  - left. unfold componentDidMount. rewrite loadDocument_call_cache. reflexivity.
  - left. rewrite componentDidUpdate_cache. reflexivity.
  - left. reflexivity.
  - left. reflexivity.
  - destruct (lookup_task k (pending w)) as [[sh slug rev|arg aw|did]|];
      try (left; reflexivity).
    destruct r as [err|response]; [left; reflexivity|].
    right. exists k, response. split; [reflexivity|].
    rewrite documentFetched_cache. reflexivity.
  - left. destruct (lookup_task k (pending w)) as [[sh slug rev|arg aw|did]|];
      try reflexivity.
    unfold revisionFetched.
    destruct r as [err|rv], aw as [[sh rev]|]; try reflexivity.
    rewrite finish_cache. reflexivity.
  - left. destruct (lookup_task k (pending w)) as [[sh slug rev|arg aw|did]|];
      try reflexivity.
    unfold shareFetched. destruct r as [err|u]; [destruct (isNotFound err)|];
      reflexivity.
Qed.

(** X10.  The shared-tree cache is written by one event only, the success
    of a document fetch, which sets the entry of the fetched document's id;
    no event removes an entry, so an id that is cached stays cached through
    every run of events. *)
Theorem cache_never_evicts (w : World) :
  (forall e : Event,
      sharedTreeCache (step w e) = sharedTreeCache w
      \/ exists (k : nat) (response : Response),
          e = DocumentSettled k (inr response)
          /\ sharedTreeCache (step w e)
             = <[id (response_document response)
                 := response_sharedTree response]> (sharedTreeCache w))
  /\ (forall (es : list Event) (key : string),
        is_Some (sharedTreeCache w !! key) ->
        is_Some (sharedTreeCache (run w es) !! key)).
Proof.
  split; [apply step_cache|].
  intros es. revert w. induction es as [|e es IH]; intros w key Hin; [exact Hin|].
  change (run w (e :: es)) with (run (step w e) es). apply IH.
  destruct (step_cache w e) as [->|(k & response & _ & ->)]; [exact Hin|].
  apply lookup_insert_is_Some. destruct (decide
    (id (response_document response) = key)); [left|right; split]; assumption.
Qed.

(** X11.  The tree cached when a document fetch succeeds is what a later
    instance of the component starts from: if the documents store holds a
    document with the fetched id for the slug, mounting sets [sharedTree] to
    the cached tree before any fetch completes.  If the store holds no
    document for the slug, mounting leaves [sharedTree] unset, whatever the
    cache contains. *)
Theorem cache_round_trip (w : World) (k : nat) (sh rev : option string)
        (slug : string) (response : Response) (p : Props) (s : Stores) :
  lookup_task k (pending w) = Some (FetchingDocument sh slug rev) ->
  let w1 := step w (DocumentSettled k (inr response)) in
  let w2 := step (laterInstance p s w1) Mount in
  (forall held : Document,
      documents_getByUrl s (documentSlug (params p)) = Some held ->
      id held = id (response_document response) ->
      sharedTree (loader w2) = response_sharedTree response
      /\ document (loader w2) = Some held)
  /\ (documents_getByUrl s (documentSlug (params p)) = None ->
      sharedTree (loader w2) = None /\ document (loader w2) = None).
Proof.
  intros Hk w1 w2. subst w2. unfold step at 1, componentDidMount.
  rewrite loadDocument_call_loader. simpl.
  split.
  - intros held Hheld Hid. rewrite Hheld. split; [|reflexivity].
    subst w1. rewrite (step_documentSettled _ _ _ _ _ _ Hk).
    rewrite documentFetched_cache, Hid, lookup_insert_eq. reflexivity.
  - intros Hmiss. rewrite Hmiss. split; reflexivity.
Qed.

(** *** Mounting *)

(** X12.  On mount, a document the store already holds for the slug
    becomes the loader's document and the active document at once, while the
    fetch is still in flight; when that fetch fails the activation is not
    taken back: the failed view keeps the document and leaves it active. *)
Theorem optimistic_activation (w : World) (held : Document) (err : Error) :
  wellFormed w ->
  documents_getByUrl (stores w) (documentSlug (params (props (loader w))))
  = Some held ->
  let w1 := step w Mount in
  let w' := step w1 (DocumentSettled (nextId w) (inl err)) in
  activeDocument w1 = Some held
  /\ document (loader w1) = Some held
  /\ lookup_task (nextId w) (pending w1)
     = Some (FetchingDocument (shareId (params (props (loader w))))
                              (documentSlug (params (props (loader w))))
                              (revisionId (params (props (loader w)))))
  /\ error (loader w') = Some err
  /\ document (loader w') = Some held
  /\ activeDocument w' = Some held.
Proof.
  intros Hwf Hheld w1 w'.
  assert (Hw1 : w1 = spawn (FetchingDocument
                              (shareId (params (props (loader w))))
                              (documentSlug (params (props (loader w))))
                              (revisionId (params (props (loader w)))))
                       (setActiveDocument held
                          (set_mounted true
                             (with_loader
                                (set_sharedTree
                                   (default None (sharedTreeCache w !! id held)))
                                (with_loader (set_document (Some held)) w))))).
  { subst w1. unfold step, componentDidMount. rewrite Hheld.
    unfold loadDocument_call. reflexivity. }
  assert (Hk : lookup_task (nextId w) (pending w1) = Some (FetchingDocument
                              (shareId (params (props (loader w))))
                              (documentSlug (params (props (loader w))))
                              (revisionId (params (props (loader w)))))).
  { rewrite Hw1. unfold spawn. simpl.
    rewrite lookup_task_app_r by (apply wellFormed_fresh, Hwf).
    apply lookup_task_here. }
  split; [rewrite Hw1; reflexivity|].
  split; [rewrite Hw1; reflexivity|].
  split; [exact Hk|].
  subst w'. rewrite (step_documentSettled _ _ _ _ _ _ Hk).
  rewrite Hw1. repeat split.
Qed.

(** *** Reloading on re-render *)

Lemma documentFetches_spawn (t : Task) (w : World) :
  documentFetches (spawn t w)
  = documentFetches w + (if isDocumentFetch (nextId w, t) then 1 else 0).
Proof.
  unfold documentFetches, spawn. simpl.
  rewrite List.filter_app, length_app. simpl.
  destruct (isDocumentFetch (nextId w, t)); reflexivity.
Qed.

Lemma documentFetches_loadDocument_call (w : World) :
  documentFetches (loadDocument_call w) = documentFetches w + 1.
Proof.
  unfold loadDocument_call. rewrite documentFetches_spawn.
  destruct (document (loader w)); reflexivity.
Qed.

Lemma loadDocument_call_stores (w : World) :
  stores (loadDocument_call w) = stores w.
Proof. unfold loadDocument_call. destruct (document (loader w)); reflexivity. Qed.

Lemma componentDidUpdate_stores (prev : Props) (w : World) :
  stores (componentDidUpdate prev w) = stores w.
Proof.
  unfold componentDidUpdate, loadRevision_call.
  repeat case_match; try reflexivity;
    change (stores (loadDocument_call w) = stores w);
    apply loadDocument_call_stores.
Qed.

Lemma render_refetch (w : World) (p : Props) :
  documentFetches (step w (Render p))
  = documentFetches w + (if reloads w then 1 else 0)
  /\ reloads (step w (Render p)) = reloads w.
Proof.
  split.
  - unfold step, componentDidUpdate, reloads.
    change (document (loader (with_loader (set_props p) w)))
      with (document (loader w)).
    change (error (loader (with_loader (set_props p) w)))
      with (error (loader w)).
    change (stores (with_loader (set_props p) w)) with (stores w).
    change (documentFetches w)
      with (documentFetches (with_loader (set_props p) w)).
    generalize (with_loader (set_props p) w) as w0. intros w0.
    assert (Hrev : forall wA : World,
               documentFetches
                 (if negb (Js.strict_eq
                             (revisionId (params (props (loader w))))
                             (revisionId (params (props (loader wA)))))
                     && wantsRevision (revisionId (params (props (loader wA))))
                  then loadRevision_call None None wA else wA)
               = documentFetches wA).
    { intros wA. destruct (_ && _); [|reflexivity].
      unfold loadRevision_call. rewrite documentFetches_spawn. simpl. lia. }
    rewrite Hrev.
    destruct (document (loader w)) as [d|]; [|lia].
    destruct (negb (policies_get (stores w) (id d))
              && negb (bool_decide (is_Some (error (loader w))))
              && Js.truthy (auth_user_id (stores w)));
      [apply documentFetches_loadDocument_call|lia].
  - unfold reloads, step.
    rewrite componentDidUpdate_loader, componentDidUpdate_stores. reflexivity.
Qed.

(** X13.  As long as the held document has no policy, no error is recorded
    and a user is signed in, every re-render starts one more document fetch,
    without bound: after [n] re-renders [n] more fetches are in flight.  If
    no document is held, a policy is present, an error is recorded or nobody
    is signed in, no number of re-renders starts any. *)
Theorem render_refetch_count (w : World) (ps : list Props) :
  documentFetches (run w (map Render ps))
  = documentFetches w + (if reloads w then length ps else 0).
Proof.
  revert w. induction ps as [|p ps IH]; intros w.
  - simpl. destruct (reloads w); lia.
  - change (run w (map Render (p :: ps)))
      with (run (step w (Render p)) (map Render ps)).
    rewrite IH. destruct (render_refetch w p) as [-> ->].
    destruct (reloads w); simpl; lia.
Qed.

Lemma remove_task_keeps (k k' : nat) (t : Task) (p : list (nat * Task)) :
  k' <> k -> (k', t) ∈ p -> (k', t) ∈ remove_task k p.
Proof.
  intros Hne. induction p as [|[k0 t0] p IH]; simpl; [trivial|].
  intros Hin. apply elem_of_cons in Hin.
  destruct (bool_decide (k0 = k)) eqn:E.
  - apply bool_decide_eq_true in E. destruct Hin as [Heq|Hin]; [|exact Hin].
    congruence.
  - destruct Hin as [Heq|Hin].
    + rewrite Heq. apply list_elem_of_here.
    + apply list_elem_of_further, IH, Hin.
Qed.

(** X14.  When a re-render changes the revision id to a specific revision
    while the reload guard holds, [componentDidUpdate] calls both
    [loadDocument] and [loadRevision]; when the document then arrives,
    [loadDocument] calls [loadRevision] again: two fetches of the same
    revision are in flight. *)
Theorem duplicate_revision_fetch (w : World) (p : Props) (response : Response) :
  wellFormed w ->
  reloads w = true ->
  revisionId (params (props (loader w))) <> revisionId (params p) ->
  wantsRevision (revisionId (params p)) = true ->
  let w' := run w [Render p; DocumentSettled (nextId w) (inr response)] in
  (S (nextId w), FetchingRevision (revisionId (params p)) None) ∈ pending w'
  /\ (nextId w,
      FetchingRevision (revisionId (params p))
                       (Some (shareId (params p), revisionId (params p))))
     ∈ pending w'.
Proof.
  intros Hwf Hre Hne Hrev w'. subst w'.
  change (run w [Render p; DocumentSettled (nextId w) (inr response)])
    with (step (step w (Render p)) (DocumentSettled (nextId w) (inr response))).
  rewrite (render_spawns_revision w p Hne Hrev), Hre.
  set (w0 := with_loader (set_props p) w).
  assert (Hcall : loadDocument_call w0
                  = spawn (FetchingDocument (shareId (params p))
                             (documentSlug (params p)) (revisionId (params p)))
                          (match document (loader w) with
                           | Some d => setActiveDocument d w0
                           | None => w0
                           end)) by reflexivity.
  rewrite Hcall.
  set (wB := match document (loader w) with
             | Some d => setActiveDocument d w0
             | None => w0
             end).
  assert (HpB : pending wB = pending w /\ nextId wB = nextId w
                /\ props (loader wB) = p).
  { subst wB w0. destruct (document (loader w)); repeat split. }
  destruct HpB as (HpB & HnB & HlB).
  set (w1 := spawn (FetchingRevision (revisionId (params p)) None)
                   (spawn (FetchingDocument (shareId (params p))
                             (documentSlug (params p)) (revisionId (params p)))
                          wB)).
  assert (Hp1 : pending w1
                = pending w
                    ++ [(nextId w, FetchingDocument (shareId (params p))
                                     (documentSlug (params p))
                                     (revisionId (params p)))]
                    ++ [(S (nextId w),
                         FetchingRevision (revisionId (params p)) None)]).
  { subst w1. unfold spawn. simpl. rewrite HpB, HnB, <- app_assoc. reflexivity. }
  assert (Hk : lookup_task (nextId w) (pending w1)
               = Some (FetchingDocument (shareId (params p))
                         (documentSlug (params p)) (revisionId (params p)))).
  { rewrite Hp1. rewrite lookup_task_app_r by (apply wellFormed_fresh, Hwf).
    apply lookup_task_here. }
  rewrite (step_documentSettled _ _ _ _ _ _ Hk).
  unfold documentFetched. rewrite Hrev. unfold loadRevision_call, suspend.
  simpl. rewrite HlB. split.
  - apply elem_of_app. left. apply remove_task_keeps; [lia|].
    rewrite HnB. apply elem_of_app. right. apply list_elem_of_here.
  - apply elem_of_app. right. apply list_elem_of_here.
Qed.

(** *** The link helpers *)

(** X15.  [onSearchLink] on a term that looks like an internal address
    whose exact lookup succeeds resolves to that single document and never
    consults the title search.  On a term that does not look like an internal
    address the exact lookup is never consulted.  A failure of the title
    search itself is the failure of [onSearchLink], a [NotFoundError]
    included: only the exact lookup swallows it. *)
Theorem search_outcomes (documents : DocumentsStore) (term : string) :
  (forall response : Response,
      isInternalUrl term = true ->
      documents_fetch documents (parseDocumentSlug term) = inr response ->
      forall titles : string -> Error + list Document,
        onSearchLink (mkDocumentsStore (documents_fetch documents) titles) term
        = inr [toSearchResult (response_document response)])
  /\ (isInternalUrl term = false ->
      forall lookup : string -> Error + Response,
        onSearchLink (mkDocumentsStore lookup (documents_searchTitles documents))
                     term
        = onSearchLink documents term)
  /\ (forall err : Error,
        isInternalUrl term = false
        \/ documents_fetch documents (parseDocumentSlug term) = inl NotFoundError ->
        documents_searchTitles documents term = inl err ->
        onSearchLink documents term = inl err).
Proof.
  split; [|split].
  - intros response Hint Hfetch titles. unfold onSearchLink. simpl.
    rewrite Hint, Hfetch. reflexivity.
  - intros Hext lookup. unfold onSearchLink. rewrite Hext. reflexivity.
  - intros err Hreach Hfail. unfold onSearchLink, searchByTitle.
    rewrite Hfail. destruct Hreach as [Hext|Hmiss].
    + rewrite Hext. reflexivity.
    + destruct (isInternalUrl term); [|reflexivity].
      rewrite Hmiss. reflexivity.
Qed.

(** X16.  [onCreateLink] follows the loader's document.  On an instance
    mounted for a slug the store does not hold, it fails before the fetch has
    completed and never calls [documents.create].  Once a fetch has
    succeeded it asks for a document with the given title and empty text in
    the fetched document's collection and under the fetched document's
    parent, and resolves to the created document's url or fails with the
    failure of [documents.create]. *)
Theorem create_link_follows_document
        (create : CreateParams -> Error + Document) (newTitle : string) :
  (forall (p : Props) (s : Stores),
      documents_getByUrl s (documentSlug (params p)) = None ->
      onCreateLink create (loader (step (initialWorld p s) Mount)) newTitle
      = inl (OtherError "document must be loaded to create link"))
  /\ (forall (w : World) (k : nat) (sh rev : option string) (slug : string)
             (response : Response),
        lookup_task k (pending w) = Some (FetchingDocument sh slug rev) ->
        let d := response_document response in
        onCreateLink create
                     (loader (step w (DocumentSettled k (inr response))))
                     newTitle
        = match create (mkCreateParams (collectionId d) (parentDocumentId d)
                                       newTitle "") with
          | inr newDocument => inr (url newDocument)
          | inl err => inl err
          end).
Proof.
  split.
  - intros p s Hmiss. unfold step, componentDidMount.
    rewrite loadDocument_call_loader. simpl. rewrite Hmiss. reflexivity.
  - intros w k sh rev slug response Hk d.
    rewrite (step_documentSettled _ _ _ _ _ _ Hk).
    unfold onCreateLink. rewrite documentFetched_document. reflexivity.
Qed.

(** *** Rendering *)

(** X17.  [render] hands the document to its children only when no error
    is recorded and both the document and the team are present; what it hands
    over is the loader's document, revision and shared tree; and the view is
    writable ([readOnly] false) exactly when the path is the edit path, the
    capability set grants [update] and the document is not archived.  With no
    error and the document or the team missing it renders the loading
    placeholder. *)
Theorem render_children (team : option Team) (w : World) :
  (forall (key : string) (hide : bool) (c : ChildProps),
      render isArchived team w = Children key hide c ->
      error (loader w) = None
      /\ document (loader w) = Some (child_document c)
      /\ is_Some team
      /\ child_revision c = revision (loader w)
      /\ child_sharedTree c = sharedTree (loader w)
      /\ child_abilities c
         = policies_abilities (stores w) (id (child_document c))
      /\ hide = child_isEditing c
      /\ (child_readOnly c = false
          <-> match_path (props (loader w)) = matchDocumentEdit
              /\ can_update (child_abilities c) = true
              /\ isArchived (child_document c) = false))
  /\ (error (loader w) = None ->
      document (loader w) = None \/ team = None ->
      render isArchived team w = Loading (isEditing (loader w))).
Proof.
  split.
  - intros key hide c. unfold render.
    destruct (error (loader w)) as [err|];
      [destruct (isOffline err); discriminate|].
    destruct (document (loader w)) as [d|]; [|discriminate].
    destruct team as [t|]; [|discriminate].
    intros Heq. injection Heq as <- <- <-. simpl.
    repeat split; try (eexists; reflexivity).
    + unfold isEditing in *.
      destruct (bool_decide (match_path (props (loader w)) = matchDocumentEdit))
        eqn:E; [apply bool_decide_eq_true in E; exact E|discriminate].
    + destruct (can_update (policies_abilities (stores w) (id d)));
        [reflexivity|].
      rewrite orb_true_r in *. discriminate.
    + destruct (isArchived d); [|reflexivity].
      rewrite orb_true_r in *. discriminate.
    + intros (Hedit & Hcan & Harch). unfold isEditing.
      rewrite bool_decide_eq_true_2 by assumption.
      rewrite Hcan, Harch. reflexivity.
  - intros Herr Hmiss. unfold render. rewrite Herr.
    destruct Hmiss as [-> | ->]; [reflexivity|].
    destruct (document (loader w)); reflexivity.
Qed.

(** *** The active document *)

Lemma loadDocument_call_active (w : World) :
  activeDocument (loadDocument_call w) = activeDocument w
  \/ exists d, document (loader w) = Some d
               /\ activeDocument (loadDocument_call w) = Some d.
Proof.
  unfold loadDocument_call. destruct (document (loader w)) as [d|].
  - right. exists d. split; reflexivity.
  - left. reflexivity.
Qed.

Lemma finish_active_or_kept (k : nat) (sh rev : option string) (w : World) :
  activeDocument (loadDocument_finish k sh rev w) = activeDocument w
  \/ exists d, document (loader w) = Some d
               /\ activeDocument (loadDocument_finish k sh rev w) = Some d.
Proof.
  destruct (document (loader w)) as [d|] eqn:Hd.
  - right. exists d. split; [reflexivity|]. apply finish_active, Hd.
  - left. unfold loadDocument_finish. rewrite Hd. reflexivity.
Qed.

Lemma step_active (w : World) (e : Event) :
  activeDocument (step w e) = activeDocument w
  \/ exists d, document (loader (step w e)) = Some d
               /\ activeDocument (step w e) = Some d.
Proof.
  destruct e as [| p | | s | k r | k r | k r]; unfold step.
  - unfold componentDidMount. rewrite loadDocument_call_loader.
    match goal with
    | |- context [loadDocument_call ?x] =>
        destruct (loadDocument_call_active x) as [Hk|(d & Hd & Ha)]
    end; [left; exact Hk|right; exists d; split; [exact Hd|exact Ha]].
  - rewrite componentDidUpdate_loader.
    unfold componentDidUpdate, loadRevision_call.
    repeat case_match; try (left; reflexivity).
    all: match goal with
         | |- context [loadDocument_call ?x] =>
             destruct (loadDocument_call_active x) as [Hk|(d0 & Hd & Ha)]
         end; [left; exact Hk|right; exists d0; split; [first [exact Hd|congruence]|exact Ha]].
  - left. reflexivity.
  - left. reflexivity.
  - destruct (lookup_task k (pending w)) as [[sh slug rev|arg aw|did]|];
      try (left; reflexivity).
    unfold documentFetched. destruct r as [err|response]; [left; reflexivity|].
    destruct (wantsRevision rev); [left; reflexivity|].
    rewrite finish_loader.
    match goal with
    | |- context [loadDocument_finish k sh rev ?x] =>
        destruct (finish_active_or_kept k sh rev x) as [Hk|(d & Hd & Ha)]
    end; [left; exact Hk|right; exists d; split; [exact Hd|exact Ha]].
  - destruct (lookup_task k (pending w)) as [[sh slug rev|arg aw|did]|];
      try (left; reflexivity).
    unfold revisionFetched.
    destruct r as [err|rv], aw as [[sh rev]|]; try (left; reflexivity).
    rewrite finish_loader.
    match goal with
    | |- context [loadDocument_finish k sh rev ?x] =>
        destruct (finish_active_or_kept k sh rev x) as [Hk|(d & Hd & Ha)]
    end; [left; exact Hk|right; exists d; split; [exact Hd|exact Ha]].
  - left. destruct (lookup_task k (pending w)) as [[sh slug rev|arg aw|did]|];
      try reflexivity.
    unfold shareFetched. destruct r as [err|u]; [destruct (isNotFound err)|];
      reflexivity.
Qed.

(** X18.  The loader only ever activates the document it holds: an event
    either leaves the active document as it was or makes it the loader's own
    [document]; and it never clears it, so once some document is active one
    stays active through every run of events. *)
Theorem active_document_follows_loader (w : World) :
  (forall e : Event,
      activeDocument (step w e) = activeDocument w
      \/ exists d, document (loader (step w e)) = Some d
                   /\ activeDocument (step w e) = Some d)
  /\ (forall es : list Event,
        is_Some (activeDocument w) -> is_Some (activeDocument (run w es))).
Proof.
  split; [apply step_active|].
  intros es. revert w. induction es as [|e es IH]; intros w Hact; [exact Hact|].
  change (run w (e :: es)) with (run (step w e) es). apply IH.
  destruct (step_active w e) as [->|(d & _ & ->)]; [exact Hact|].
  eexists. reflexivity.
Qed.

End Facts.

(** *** The properties on concrete runs *)

Import Examples LoaderCases.

Lemma oneRequest_wellFormed (can : Abilities) : wellFormed (oneRequest can).
Proof. unfold oneRequest. apply run_wellFormed, initialWorld_wellFormed. Qed.

Lemma loadedDocA_wellFormed : wellFormed loadedDocA.
Proof. unfold loadedDocA. apply run_wellFormed, oneRequest_wellFormed. Qed.

Lemma pinnedRequest_wellFormed : wellFormed pinnedRequest.
Proof. unfold pinnedRequest. apply run_wellFormed, initialWorld_wellFormed. Qed.

Lemma fetch_failure_witness :
  render neverArchived (Some acme)
         (step (oneRequest fullAccess) (DocumentSettled 0 (inl OfflineError)))
  = ErrorOffline.
Proof.
  destruct (fetch_failure neverArchived (oneRequest fullAccess) 0 None None
              "doc-a" OfflineError (Some acme) eq_refl)
    as (_ & _ & _ & _ & _ & _ & _ & Hview).
  exact Hview.
Defined.

Lemma revision_failure_partial_witness :
  error (loader (run pinnedRequest [DocumentSettled 0 (inr respA);
                                    RevisionSettled 0 (inl NotFoundError)]))
  = Some NotFoundError
  /\ document (loader (run pinnedRequest
                          [DocumentSettled 0 (inr respA);
                           RevisionSettled 0 (inl NotFoundError)]))
     = Some docA.
Proof.
  destruct (revision_failure_partial neverArchived pinnedRequest 0 None
              (Some "rev-1") "old-a" respA NotFoundError None
              pinnedRequest_wellFormed eq_refl eq_refl)
    as (Herr & Hdoc & _).
  split; [exact Herr|exact Hdoc].
Defined.

Lemma errored_is_terminal_witness :
  is_Some (error (loader (run failedOffline
                            [Render (propsFor "doc-b" None);
                             StoresChanged (storesWith fullAccess)]))).
Proof.
  apply (errored_is_terminal neverArchived failedOffline
           [Render (propsFor "doc-b" None);
            StoresChanged (storesWith fullAccess)] (Some acme)).
  eexists. reflexivity.
Defined.

Lemma revision_change_outcome_witness :
  revision (loader (run loadedDocA
                      [Render (historyPropsFor "doc-a" "rev-1");
                       RevisionSettled 3 (inl OfflineError)])) = None
  /\ unhandled (run loadedDocA
                   [Render (historyPropsFor "doc-a" "rev-1");
                    RevisionSettled 3 (inl OfflineError)]) = [OfflineError].
Proof.
  destruct (revision_change_outcome loadedDocA
              (historyPropsFor "doc-a" "rev-1") (inl OfflineError)
              loadedDocA_wellFormed)
    as (_ & _ & _ & _ & Hrev & Hun);
    [discriminate|reflexivity|].
  split; [exact Hrev|exact Hun].
Defined.

Lemma loadRevision_reads_current_props_witness :
  (0, FetchingRevision None (Some (None, Some "rev-1")))
  ∈ pending (run pinnedRequest [Render (propsFor "old-a" None);
                                DocumentSettled 0 (inr respA)]).
Proof.
  apply (loadRevision_reads_current_props pinnedRequest 0 None (Some "rev-1")
           "old-a" respA (propsFor "old-a" None)); reflexivity.
Defined.

Lemma cache_never_evicts_witness :
  is_Some (sharedTreeCache
             (run loadedDocA [Unmount; ShareSettled 1 (inl NotFoundError)])
           !! "id-a").
Proof.
  apply (proj2 (cache_never_evicts loadedDocA)
           [Unmount; ShareSettled 1 (inl NotFoundError)] "id-a").
  exists None. reflexivity.
Defined.

Lemma cache_round_trip_witness :
  sharedTree (loader (step (laterInstance (propsFor "doc-a" None)
                              (storesWith fullAccess)
                              (step (oneRequest fullAccess)
                                    (DocumentSettled 0 (inr sharedRespA))))
                           Mount))
  = Some treeA
  /\ document (loader (step (laterInstance (propsFor "doc-a" None)
                               (storesWith fullAccess)
                               (step (oneRequest fullAccess)
                                     (DocumentSettled 0 (inr sharedRespA))))
                            Mount))
     = Some docA.
Proof.
  apply (proj1 (cache_round_trip (oneRequest fullAccess) 0 None None "doc-a"
                  sharedRespA (propsFor "doc-a" None) (storesWith fullAccess)
                  eq_refl) docA); reflexivity.
Defined.

Lemma optimistic_activation_witness :
  activeDocument
    (run (initialWorld (propsFor "doc-a" None) (storesWith fullAccess))
         [Mount; DocumentSettled 0 (inl NotFoundError)])
  = Some docA.
Proof.
  destruct (optimistic_activation
              (initialWorld (propsFor "doc-a" None) (storesWith fullAccess))
              docA NotFoundError
              (initialWorld_wellFormed _ _) eq_refl)
    as (_ & _ & _ & _ & _ & Hactive).
  exact Hactive.
Defined.

Lemma duplicate_revision_fetch_witness :
  (3, FetchingRevision (Some "rev-1") None)
  ∈ pending (run loadedDocA [Render (historyPropsFor "doc-a" "rev-1");
                             DocumentSettled 2 (inr respA)])
  /\ (2, FetchingRevision (Some "rev-1") (Some (None, Some "rev-1")))
     ∈ pending (run loadedDocA [Render (historyPropsFor "doc-a" "rev-1");
                                DocumentSettled 2 (inr respA)]).
Proof.
  apply (duplicate_revision_fetch loadedDocA (historyPropsFor "doc-a" "rev-1")
           respA loadedDocA_wellFormed);
    [reflexivity|discriminate|reflexivity].
Defined.

Lemma search_outcomes_witness :
  onSearchLink (searchStore (inr respA)) "/doc/doc-a" = inr [toSearchResult docA]
  /\ onSearchLink
       (mkDocumentsStore (fun _ => inl NotFoundError)
                         (fun _ => inl NotFoundError)) "pro"
     = inl NotFoundError.
Proof.
  split.
  - apply (proj1 (@search_outcomes asciiHelpers (searchStore (inr respA))
                    "/doc/doc-a") respA
             eq_refl eq_refl
             (documents_searchTitles (searchStore (inr respA)))).
  - apply (proj2 (proj2 (@search_outcomes asciiHelpers
                           (mkDocumentsStore (fun _ => inl NotFoundError)
                                             (fun _ => inl NotFoundError))
                           "pro")) NotFoundError);
      [left; reflexivity|reflexivity].
Defined.

Lemma create_link_follows_document_witness :
  onCreateLink createIn
               (loader (step (initialWorld (propsFor "doc-a" None)
                                           (emptyStores fullAccess)) Mount))
               "Notes"
  = inl (OtherError "document must be loaded to create link")
  /\ onCreateLink createIn
                  (loader (step (oneRequest fullAccess)
                                (DocumentSettled 0 (inr respA))))
                  "Notes"
     = inr "/doc/new-doc".
Proof.
  destruct (@create_link_follows_document asciiHelpers createIn "Notes")
    as [Hcold Hloaded].
  split.
  - apply Hcold. reflexivity.
  - rewrite (Hloaded (oneRequest fullAccess) 0 None None "doc-a" respA eq_refl).
    reflexivity.
Defined.

Lemma active_document_follows_loader_witness :
  is_Some (activeDocument
             (run loadedDocA [Render (propsFor "doc-b" None); Unmount])).
Proof.
  apply (proj2 (active_document_follows_loader loadedDocA)
           [Render (propsFor "doc-b" None); Unmount]).
  eexists. reflexivity.
Defined.

Lemma render_children_witness :
  document (loader loadedDocA) = Some docA
  /\ render neverArchived None loadedDocA = Loading false.
Proof.
  destruct (render_children neverArchived (Some acme) loadedDocA)
    as [Hchildren _].
  destruct (render_children neverArchived None loadedDocA) as [_ Hloading].
  split.
  - apply (Hchildren "read-only" false
             (mkChildProps docA None fullAccess false true None)).
    reflexivity.
  - apply Hloading; [reflexivity|right; reflexivity].
Defined.

End DataLoaderExtra.
